(** * EndCrypt: the classification-driven envelope encryption service

    A shallow embedding of [src/services/awsKmsService.ts] (class
    [AWSKMSService]) and of the Node primitives it calls, followed by the
    properties of the encryption envelope protocol.

    Conventions of the embedding.
    - A JavaScript string is a [string] holding the bytes of its UTF-8
      form; a Node [Buffer] is a [list ascii].  [Buffer.from(s)] and
      [buf.toString()] are then the two list/string conversions.  This is
      exact for well-formed strings, which is what [JSON.stringify] and
      the base64 and hex encoders produce.
    - An [async] method is a computation in the monad [JS]: it takes the
      world (key cache, clock, timers, random source, console, the shared
      configuration object) and gives back an outcome, a returned value
      or a thrown exception, with the new world.
    - A [Date] is its time value, an integer number of milliseconds; the
      range limits of [Date] and of doubles are left out.
    - What lives outside the repository (JSON, the KMS endpoint, the
      OpenSSL cipher) is a [Platform]; theorems hold for every platform,
      closed examples run on [reference_platform].
    - The replacement character that [toString] substitutes for bytes
      that are not UTF-8 is left out; no statement below depends on what
      [toString] does to such bytes. *)

From Stdlib Require Import ZArith NArith Ascii String List Lia.
From stdpp Require Import base gmap strings list pretty.

Set Warnings "-register-all".

(** * Part I: the embedding *)

(** ** Bytes *)

(** A Node [Buffer]. *)
Abbreviation Buffer := (list ascii).

Section ByteCodecs.

Local Open Scope N_scope.

(** [Buffer.from(s)] (UTF-8) and [buf.toString()] (UTF-8). *)
Definition Buffer_from (s : string) : Buffer := list_ascii_of_string s.
Definition Buffer_toString (b : Buffer) : string := string_of_list_ascii b.

Definition all_ascii : list ascii := map ascii_of_nat (seq 0 256).

(** ** Base64, as [buf.toString('base64')] and [Buffer.from(s, 'base64')] *)

Definition base64_alphabet : string :=
  "ABCDEFGHIJKLMNOPQRSTUVWXYZabcdefghijklmnopqrstuvwxyz0123456789+/".

Definition base64_char (n : N) : ascii :=
  match String.get (N.to_nat n) base64_alphabet with
  | Some c => c
  | None => "="%char
  end.

(** The decoder's table: the standard and the URL-safe alphabet. *)
Definition unbase64 (c : ascii) : option N :=
  let n := N_of_ascii c in
  if (65 <=? n) && (n <=? 90) then Some (n - 65)
  else if (97 <=? n) && (n <=? 122) then Some (n - 71)
  else if (48 <=? n) && (n <=? 57) then Some (n + 4)
  else if (n =? 43) || (n =? 45) then Some 62
  else if (n =? 47) || (n =? 95) then Some 63
  else None.

Definition sextet1 (x : N) : N := N.shiftr x 2.
Definition sextet2 (x y : N) : N := N.lor (N.shiftl (N.land x 3) 4) (N.shiftr y 4).
Definition sextet3 (y z : N) : N := N.lor (N.shiftl (N.land y 15) 2) (N.shiftr z 6).
Definition sextet4 (z : N) : N := N.land z 63.

Fixpoint base64_encode (b : Buffer) : string :=
  match b with
  | [] => EmptyString
  | [a1] =>
      let x := N_of_ascii a1 in
      String (base64_char (sextet1 x)) (String (base64_char (sextet2 x 0)) "==")
  | [a1; a2] =>
      let x := N_of_ascii a1 in
      let y := N_of_ascii a2 in
      String (base64_char (sextet1 x)) (String (base64_char (sextet2 x y))
        (String (base64_char (sextet3 y 0)) "="))
  | a1 :: a2 :: a3 :: rest =>
      let x := N_of_ascii a1 in
      let y := N_of_ascii a2 in
      let z := N_of_ascii a3 in
      String (base64_char (sextet1 x)) (String (base64_char (sextet2 x y))
        (String (base64_char (sextet3 y z)) (String (base64_char (sextet4 z))
          (base64_encode rest))))
  end.

(** The decoder is lenient, as Node's is: a character outside the table
    is skipped, and [=] ends the input. *)
Fixpoint base64_sextets (s : string) : list N :=
  match s with
  | EmptyString => []
  | String c rest =>
      match unbase64 c with
      | Some d => d :: base64_sextets rest
      | None => if Ascii.eqb c "=" then [] else base64_sextets rest
      end
  end.

Definition octet1 (hi lo : N) : ascii :=
  ascii_of_N (N.lor (N.shiftl (N.land hi 63) 2) (N.shiftr (N.land lo 48) 4)).
Definition octet2 (hi lo : N) : ascii :=
  ascii_of_N (N.lor (N.shiftl (N.land hi 15) 4) (N.shiftr (N.land lo 60) 2)).
Definition octet3 (hi lo : N) : ascii :=
  ascii_of_N (N.lor (N.shiftl (N.land hi 3) 6) (N.land lo 63)).

Fixpoint base64_octets (ds : list N) : Buffer :=
  match ds with
  | d1 :: d2 :: d3 :: d4 :: rest =>
      octet1 d1 d2 :: octet2 d2 d3 :: octet3 d3 d4 :: base64_octets rest
  | [d1; d2; d3] => [octet1 d1 d2; octet2 d2 d3]
  | [d1; d2] => [octet1 d1 d2]
  | _ => []
  end.

Definition base64_decode (s : string) : Buffer := base64_octets (base64_sextets s).

(** ** Hex, as [buf.toString('hex')] and [Buffer.from(s, 'hex')] *)

Definition hex_char (n : N) : ascii :=
  match String.get (N.to_nat n) "0123456789abcdef" with
  | Some c => c
  | None => "0"%char
  end.

Definition unhex (c : ascii) : option N :=
  let n := N_of_ascii c in
  if (48 <=? n) && (n <=? 57) then Some (n - 48)
  else if (97 <=? n) && (n <=? 102) then Some (n - 87)
  else if (65 <=? n) && (n <=? 70) then Some (n - 55)
  else None.

Definition hex_byte (a : ascii) : string :=
  let x := N_of_ascii a in
  String (hex_char (N.shiftr x 4)) (String (hex_char (N.land x 15)) EmptyString).

Fixpoint hex_encode (b : Buffer) : string :=
  match b with
  | [] => EmptyString
  | a :: rest => hex_byte a +:+ hex_encode rest
  end.

(** Decoding stops at the first pair that is not two hex digits. *)
Fixpoint hex_decode (s : string) : Buffer :=
  match s with
  | String c1 (String c2 rest) =>
      match unhex c1, unhex c2 with
      | Some hi, Some lo => ascii_of_N (N.lor (N.shiftl hi 4) lo) :: hex_decode rest
      | _, _ => []
      end
  | _ => []
  end.

(** ** Strings: [startsWith] and [split] *)

Definition startsWith (s p : string) : bool := String.prefix p s.

(** [s.split(sep)] for a one-character separator: never empty. *)
Fixpoint split (sep : ascii) (s : string) : list string :=
  match s with
  | EmptyString => [EmptyString]
  | String c rest =>
      if Ascii.eqb c sep then EmptyString :: split sep rest
      else match split sep rest with
           | p :: ps => String c p :: ps
           | [] => [String c EmptyString]
           end
  end.

Fixpoint string_forallb (p : ascii -> bool) (s : string) : bool :=
  match s with
  | EmptyString => true
  | String c rest => p c && string_forallb p rest
  end.

Definition not_colon (c : ascii) : bool := negb (Ascii.eqb c ":").

Definition no_colon (s : string) : bool := string_forallb not_colon s.

(** [crypto.randomUUID()] from sixteen random bytes: the version nibble is
    set to 4 and the variant bits to 10, then the bytes are printed in
    hex, grouped 8-4-4-4-12. *)
Definition uuid_stamp (b : Buffer) : Buffer :=
  alter (fun a => ascii_of_N (N.lor (N.land (N_of_ascii a) 63) 128)) 8%nat
    (alter (fun a => ascii_of_N (N.lor (N.land (N_of_ascii a) 15) 64)) 6%nat b).

Definition uuid_format (b : Buffer) : string :=
  let b := uuid_stamp b in
  hex_encode (take 4 b) +:+ "-" +:+
  hex_encode (take 2 (drop 4 b)) +:+ "-" +:+
  hex_encode (take 2 (drop 6 b)) +:+ "-" +:+
  hex_encode (take 2 (drop 8 b)) +:+ "-" +:+
  hex_encode (take 6 (drop 10 b)).

End ByteCodecs.

(** ** Exceptions, outcomes and the console *)

Inductive Exn : Type :=
| Error (message : string)        (* [new Error(message)] *)
| TypeError (message : string)    (* thrown by the runtime on [undefined] *)
| SyntaxError (message : string)  (* thrown by [JSON.parse] *)
| RemoteError (code : string).    (* a rejected AWS request *)

Inductive Outcome (A : Type) : Type :=
| Return (a : A)
| Throw (e : Exn).
Arguments Return {A} a.
Arguments Throw {A} e.

Inductive LogEntry : Type :=
| console_error (label : string) (e : Exn)
| console_log (line : string).

(** A reply of the remote KMS endpoint: the promise is fulfilled or rejected. *)
Inductive Reply (A : Type) : Type :=
| Fulfilled (a : A)
| Rejected (code : string).
Arguments Fulfilled {A} a.
Arguments Rejected {A} code.

(** ** The data model *)

(** [enum DataClassification]; at run time a value of the enum is its string. *)
Inductive DataClassification : Type := PUBLIC | INTERNAL | CONFIDENTIAL | RESTRICTED.

Definition tier_value (c : DataClassification) : string :=
  match c with
  | PUBLIC => "public"
  | INTERNAL => "internal"
  | CONFIDENTIAL => "confidential"
  | RESTRICTED => "restricted"
  end.

(** The [case] labels of a [switch] over the enum, compared with [===]. *)
Definition tier_of (s : string) : option DataClassification :=
  if String.eqb s "public" then Some PUBLIC
  else if String.eqb s "internal" then Some INTERNAL
  else if String.eqb s "confidential" then Some CONFIDENTIAL
  else if String.eqb s "restricted" then Some RESTRICTED
  else None.

(** The [encryptionContext] of an envelope is an object reference.  Every
    envelope built by the service points to the one object
    [ENCRYPTION_CONFIG.encryptionContext]; an envelope built elsewhere, or
    one whose field was assigned, owns a map of its own. *)
Inductive ContextRef : Type :=
| SharedConfigContext
| OwnContext (m : gmap string string).

(** [interface EncryptedData] *)
Record EncryptedData : Type := mkEncryptedData {
  encryptedBlob : string;
  dataKeyId : string;
  encryptionContext : ContextRef;
  algorithm : string;
  classification : string;
  timestamp : string;
  iv : option string;
  authTag : option string
}.

Definition with_encryptionContext (r : ContextRef) (e : EncryptedData) : EncryptedData :=
  mkEncryptedData (encryptedBlob e) (dataKeyId e) r (algorithm e)
    (classification e) (timestamp e) (iv e) (authTag e).

Definition with_iv (v : option string) (e : EncryptedData) : EncryptedData :=
  mkEncryptedData (encryptedBlob e) (dataKeyId e) (encryptionContext e) (algorithm e)
    (classification e) (timestamp e) v (authTag e).

Definition with_authTag (t : option string) (e : EncryptedData) : EncryptedData :=
  mkEncryptedData (encryptedBlob e) (dataKeyId e) (encryptionContext e) (algorithm e)
    (classification e) (timestamp e) (iv e) t.

Definition with_classification (c : string) (e : EncryptedData) : EncryptedData :=
  mkEncryptedData (encryptedBlob e) (dataKeyId e) (encryptionContext e) (algorithm e)
    c (timestamp e) (iv e) (authTag e).

(** [interface DataEncryptionKey]; a [Date] is its time value in milliseconds. *)
Record DataEncryptionKey : Type := mkDataEncryptionKey {
  keyId : string;
  plaintextKey : Buffer;
  encryptedKey : string;
  createdAt : Z;
  expiresAt : Z
}.

(** The fields of [AWSKMSService] that are set once by the constructor;
    [keyCache], the mutable one, is part of the world. *)
Record AWSKMSService : Type := mkAWSKMSService {
  customerMasterKeyId : string;
  cacheTimeout : Z
}.

(** ** The world *)

Record World : Type := mkWorld {
  keyCache : gmap string DataEncryptionKey;  (* [this.keyCache] *)
  clock : Z;                                 (* [Date.now()] *)
  timers : list (Z * string);                (* pending [setTimeout]s: due time, key to delete *)
  entropy : nat -> ascii;                    (* the bytes [crypto] will hand out *)
  drawn : nat;                               (* how many of them were handed out *)
  kmsRequests : nat;                         (* requests sent to the KMS endpoint *)
  configContext : gmap string string;        (* [ENCRYPTION_CONFIG.encryptionContext] *)
  console : list LogEntry                    (* newest first *)
}.

Definition set_keyCache (m : gmap string DataEncryptionKey) (w : World) : World :=
  mkWorld m (clock w) (timers w) (entropy w) (drawn w) (kmsRequests w)
    (configContext w) (console w).
Definition set_clock (t : Z) (w : World) : World :=
  mkWorld (keyCache w) t (timers w) (entropy w) (drawn w) (kmsRequests w)
    (configContext w) (console w).
Definition set_timers (ts : list (Z * string)) (w : World) : World :=
  mkWorld (keyCache w) (clock w) ts (entropy w) (drawn w) (kmsRequests w)
    (configContext w) (console w).
Definition set_drawn (n : nat) (w : World) : World :=
  mkWorld (keyCache w) (clock w) (timers w) (entropy w) n (kmsRequests w)
    (configContext w) (console w).
Definition set_kmsRequests (n : nat) (w : World) : World :=
  mkWorld (keyCache w) (clock w) (timers w) (entropy w) (drawn w) n
    (configContext w) (console w).
Definition set_configContext (m : gmap string string) (w : World) : World :=
  mkWorld (keyCache w) (clock w) (timers w) (entropy w) (drawn w) (kmsRequests w)
    m (console w).
Definition set_console (l : list LogEntry) (w : World) : World :=
  mkWorld (keyCache w) (clock w) (timers w) (entropy w) (drawn w) (kmsRequests w)
    (configContext w) l.

(** What an envelope's [encryptionContext] reads as in a given world. *)
Definition deref (w : World) (r : ContextRef) : gmap string string :=
  match r with
  | SharedConfigContext => configContext w
  | OwnContext m => m
  end.

(** ** The monad of [async] methods *)

Definition JS (A : Type) : Type := World -> Outcome A * World.

Definition ret {A} (a : A) : JS A := fun w => (Return a, w).
Definition throw {A} (e : Exn) : JS A := fun w => (Throw e, w).

Definition bind {A B} (m : JS A) (k : A -> JS B) : JS B :=
  fun w =>
    match m w with
    | (Return a, w') => k a w'
    | (Throw e, w') => (Throw e, w')
    end.

(** [try { m } catch (error) { h error }] *)
Definition try_catch {A} (m : JS A) (h : Exn -> JS A) : JS A :=
  fun w =>
    match m w with
    | (Return a, w') => (Return a, w')
    | (Throw e, w') => h e w'
    end.

Notation "x <- m ;; k" := (bind m (fun x => k))
  (at level 100, m at next level, right associativity).
Notation "m ;;; k" := (bind m (fun _ => k))
  (at level 100, right associativity).

Definition lift {A} (o : Outcome A) : JS A := fun w => (o, w).

(** [x!] followed by a member access: a [TypeError] when [x] is undefined. *)
Definition defined {A} (x : option A) : JS A :=
  match x with
  | Some a => ret a
  | None => throw (TypeError "Cannot read properties of undefined")
  end.

(** [Buffer.from(data)] where [data] may be [undefined] at run time. *)
Definition Buffer_from_any (data : option string) : JS Buffer :=
  match data with
  | Some s => ret (Buffer_from s)
  | None => throw (TypeError "The first argument must be of type string")
  end.

Definition Date_now : JS Z := fun w => (Return (clock w), w).

Definition console_error_ (label : string) (e : Exn) : JS unit :=
  fun w => (Return tt, set_console (console_error label e :: console w) w).

Definition console_log_ (line : string) : JS unit :=
  fun w => (Return tt, set_console (console_log line :: console w) w).

Definition crypto_randomBytes (n : nat) : JS Buffer :=
  fun w => (Return (map (entropy w) (seq (drawn w) n)), set_drawn (drawn w + n) w).

Definition crypto_randomUUID : JS string :=
  b <- crypto_randomBytes 16 ;; ret (uuid_format b).

Definition ENCRYPTION_CONFIG_encryptionContext : JS (gmap string string) :=
  fun w => (Return (configContext w), w).

(** [await kms.op(params).promise()]: the request is numbered, a rejected
    promise throws. *)
Definition kms_request {A} (op : nat -> Reply A) : JS A :=
  fun w =>
    let w' := set_kmsRequests (S (kmsRequests w)) w in
    match op (kmsRequests w) with
    | Fulfilled a => (Return a, w')
    | Rejected code => (Throw (RemoteError code), w')
    end.

Definition keyCache_set (k : string) (v : DataEncryptionKey) : JS unit :=
  fun w => (Return tt, set_keyCache (<[k := v]> (keyCache w)) w).

Definition keyCache_clear : JS unit :=
  fun w => (Return tt, set_keyCache ∅ w).

(** [setTimeout(() => this.keyCache.delete(keyId), delay)] *)
Definition setTimeout_delete (k : string) (delay : Z) : JS unit :=
  fun w => (Return tt, set_timers (timers w ++ [((clock w + delay)%Z, k)]) w).

(** A key that is absent, or present and expired. *)
Definition unavailable (w : World) (k : string) : Prop :=
  keyCache w !! k = None \/
  exists cachedKey, keyCache w !! k = Some cachedKey /\ (expiresAt cachedKey <= clock w)%Z.

(** ** The event loop: time passes between two calls *)

(** The clock moves on and no timer has run yet. *)
Definition tick (d : Z) (w : World) : World := set_clock (clock w + d)%Z w.

Definition fire (w : World) (t : Z * string) : World :=
  set_keyCache (delete t.2 (keyCache w)) w.

(** The timers that are due run, in the order they were set. *)
Definition run_timers (w : World) : World :=
  let due := filter (fun t => (t.1 <= clock w)%Z) (timers w) in
  let pending := filter (fun t => ¬ (t.1 <= clock w)%Z) (timers w) in
  foldl fire (set_timers pending w) due.

Definition elapse (d : Z) (w : World) : World := run_timers (tick d w).

(** ** What the service calls outside the repository *)

Class Platform : Type := mkPlatform {
  (** the values of type [any] handed to [encrypt] *)
  Payload : Type;
  (** [JSON.stringify]: a string, [undefined], or an exception *)
  JSON_stringify : Payload -> Outcome (option string);
  (** [JSON.parse]: [None] is a [SyntaxError] *)
  JSON_parse : string -> option Payload;
  (** [new Date(t).toISOString()] *)
  Date_toISOString : Z -> string;
  (** [kms.encrypt({KeyId, Plaintext, EncryptionContext})], giving [CiphertextBlob] *)
  kms_encrypt : nat -> string -> Buffer -> gmap string string -> Reply (option Buffer);
  (** [kms.decrypt({CiphertextBlob, EncryptionContext})], giving [Plaintext] *)
  kms_decrypt : nat -> Buffer -> gmap string string -> Reply (option Buffer);
  (** [kms.generateDataKey({KeyId, KeySpec, EncryptionContext})], giving
      [Plaintext] and [CiphertextBlob] *)
  kms_generateDataKey :
    nat -> string -> string -> gmap string string -> Reply (option Buffer * option Buffer);
  (** [kms.enableKeyRotation({KeyId})] *)
  kms_enableKeyRotation : nat -> string -> Reply unit;
  (** [crypto.createCipher('aes-256-cbc', password)], then [update] and [final] *)
  cipher_aes_256_cbc : Buffer -> Buffer -> Buffer;
  (** [crypto.createDecipher('aes-256-cbc', password)], then [update] and
      [final]; [None] is OpenSSL's bad decrypt *)
  decipher_aes_256_cbc : Buffer -> Buffer -> option Buffer
}.

(** ** Module constants *)

Definition ENDCRYPT_KMS_CONFIG_alias : string := "EndCrypt".
Definition ENDCRYPT_KMS_CONFIG_keyId : string := "5e239a00-de10-43f1-b1df-8104ab293fbe".
Definition ENDCRYPT_KMS_CONFIG_region : string := "eu-north-1".
Definition ENCRYPTION_CONFIG_keySpec : string := "AES_256".

(** [a || b] on strings that may be undefined: the empty string is falsy. *)
Definition or_else (a : option string) (b : string) : string :=
  match a with
  | Some s => if String.eqb s EmptyString then b else s
  | None => b
  end.

(** The object [ENCRYPTION_CONFIG.encryptionContext] when the module is loaded. *)
Definition initial_encryptionContext (NODE_ENV : option string) : gmap string string :=
  list_to_map
    [ ("application", "endcrypt-financial");
      ("environment", or_else NODE_ENV "development");
      ("version", "1.0.0");
      ("keyAlias", ENDCRYPT_KMS_CONFIG_alias);
      ("region", ENDCRYPT_KMS_CONFIG_region) ].

(** ** class AWSKMSService *)

Section Service.

Context {pf : Platform}.

(** [constructor(cmkId?)] *)
Definition new_AWSKMSService (cmkId AWS_KMS_KEY_ID : option string) : JS AWSKMSService :=
  let this :=
    mkAWSKMSService (or_else cmkId (or_else AWS_KMS_KEY_ID ENDCRYPT_KMS_CONFIG_keyId))
      (15 * 60 * 1000)%Z in
  keyCache_clear ;;;
  if String.eqb (customerMasterKeyId this) EmptyString
  then throw (Error "AWS KMS Customer Master Key ID is required")
  else
    console_log_ ("EndCrypt KMS Service initialized with key: " +:+ ENDCRYPT_KMS_CONFIG_alias) ;;;
    console_log_ ("Region: " +:+ ENDCRYPT_KMS_CONFIG_region) ;;;
    console_log_ ("Key ID: " +:+ customerMasterKeyId this) ;;;
    ret this.

Variable this : AWSKMSService.

Definition generateDataKey : JS DataEncryptionKey :=
  try_catch
    (ctx <- ENCRYPTION_CONFIG_encryptionContext ;;
     result <- kms_request (fun n =>
       kms_generateDataKey n (customerMasterKeyId this) ENCRYPTION_CONFIG_keySpec ctx) ;;
     match result with
     | (Some Plaintext, Some CiphertextBlob) =>
         keyId <- crypto_randomUUID ;;
         createdAt <- Date_now ;;
         now <- Date_now ;;
         let dataKey :=
           mkDataEncryptionKey keyId Plaintext (base64_encode CiphertextBlob)
             createdAt (now + cacheTimeout this)%Z in
         keyCache_set keyId dataKey ;;;
         setTimeout_delete keyId (cacheTimeout this) ;;;
         ret dataKey
     | _ => throw (Error "Failed to generate data key")
     end)
    (fun error =>
       console_error_ "Data key generation error:" error ;;;
       throw (Error "Failed to generate data encryption key")).

(** The data key [generateDataKey] builds from a KMS reply in world [w],
    and the world it leaves: these name the two for the statements of
    Part II. *)
Definition issued (w : World) (Plaintext CiphertextBlob : Buffer) : DataEncryptionKey :=
  mkDataEncryptionKey (uuid_format (map (entropy w) (seq (drawn w) 16)))
    Plaintext (base64_encode CiphertextBlob) (clock w) (clock w + cacheTimeout this)%Z.

Definition after_issue (w : World) (dek : DataEncryptionKey) : World :=
  mkWorld (<[keyId dek := dek]> (keyCache w)) (clock w)
    (timers w ++ [((clock w + cacheTimeout this)%Z, keyId dek)])
    (entropy w) (drawn w + 16) (S (kmsRequests w)) (configContext w) (console w).

Definition rotateKeys : JS unit :=
  try_catch
    (kms_request (fun n => kms_enableKeyRotation n (customerMasterKeyId this)) ;;;
     keyCache_clear ;;;
     console_log_ "Key rotation enabled successfully")
    (fun error =>
       console_error_ "Key rotation error:" error ;;;
       throw (Error "Failed to rotate encryption keys")).

Definition encryptPublicData (data : option string) (timestamp : string) : JS EncryptedData :=
  buf <- Buffer_from_any data ;;
  ret (mkEncryptedData (base64_encode buf) "public" SharedConfigContext
         "base64" (tier_value PUBLIC) timestamp None None).

Definition encryptInternalData (data : option string) (timestamp : string) : JS EncryptedData :=
  buf <- Buffer_from_any data ;;
  ctx <- ENCRYPTION_CONFIG_encryptionContext ;;
  result <- kms_request (fun n => kms_encrypt n (customerMasterKeyId this) buf ctx) ;;
  CiphertextBlob <- defined result ;;
  ret (mkEncryptedData (base64_encode CiphertextBlob) (customerMasterKeyId this)
         SharedConfigContext "aws-kms" (tier_value INTERNAL) timestamp None None).

Definition encryptConfidentialData (data : option string) (timestamp : string)
  : JS EncryptedData :=
  dataKey <- generateDataKey ;;
  iv <- crypto_randomBytes 16 ;;
  input <- match data with
           | Some s => ret s
           | None => throw (TypeError "The data argument must be of type string")
           end ;;
  let encrypted :=
    hex_encode (cipher_aes_256_cbc (plaintextKey dataKey) (Buffer_from input)) in
  ret (mkEncryptedData encrypted (keyId dataKey) SharedConfigContext
         "aes-256-cbc" (tier_value CONFIDENTIAL) timestamp
         (Some (hex_encode iv)) (Some "sha256-hmac")).

Definition tokenizeData (data : option string) : JS string :=
  token <- crypto_randomUUID ;;
  buf <- Buffer_from_any data ;;
  ret ("TOKEN:" +:+ token +:+ ":" +:+ base64_encode buf).

Definition detokenizeData (tokenizedData : string) : JS string :=
  if startsWith tokenizedData "TOKEN:" then
    let parts := split ":" tokenizedData in
    match parts !! 2%nat with
    | Some part =>
        if (3 <=? length parts)%nat && negb (String.eqb part EmptyString)
        then ret (Buffer_toString (base64_decode part))
        else ret tokenizedData
    | None => ret tokenizedData
    end
  else ret tokenizedData.

Definition encryptRestrictedData (data : option string) (timestamp : string)
  : JS EncryptedData :=
  tokenizedData <- tokenizeData data ;;
  encryptConfidentialData (Some tokenizedData) timestamp.

Definition encrypt (data : Payload) (classification : string) : JS EncryptedData :=
  try_catch
    (serializedData <- lift (JSON_stringify data) ;;
     now <- Date_now ;;
     let timestamp := Date_toISOString now in
     match tier_of classification with
     | Some PUBLIC => encryptPublicData serializedData timestamp
     | Some INTERNAL => encryptInternalData serializedData timestamp
     | Some CONFIDENTIAL => encryptConfidentialData serializedData timestamp
     | Some RESTRICTED => encryptRestrictedData serializedData timestamp
     | None => throw (Error ("Unsupported data classification: " +:+ classification))
     end)
    (fun error =>
       console_error_ "Encryption error:" error ;;;
       throw (Error "Failed to encrypt data")).

Definition getOrDecryptDataKey (keyId : string) : JS DataEncryptionKey :=
  cache <- (fun w => (Return (keyCache w), w)) ;;
  now <- Date_now ;;
  match cache !! keyId with
  | Some cachedKey =>
      if (now <? expiresAt cachedKey)%Z then ret cachedKey
      else throw (Error "Data key decryption not implemented")
  | None => throw (Error "Data key decryption not implemented")
  end.

Definition decryptPublicData (encryptedBlob : string) : JS string :=
  ret (Buffer_toString (base64_decode encryptedBlob)).

Definition decryptInternalData (encryptedBlob : string) (dataKeyId : string) : JS string :=
  ctx <- ENCRYPTION_CONFIG_encryptionContext ;;
  result <- kms_request (fun n => kms_decrypt n (base64_decode encryptedBlob) ctx) ;;
  Plaintext <- defined result ;;
  ret (Buffer_toString Plaintext).

Definition decryptConfidentialData (encryptedBlob : string) (dataKeyId : string)
    (iv : option string) (authTag : option string) : JS string :=
  dataKey <- getOrDecryptDataKey dataKeyId ;;
  match decipher_aes_256_cbc (plaintextKey dataKey) (hex_decode encryptedBlob) with
  | Some decrypted => ret (Buffer_toString decrypted)
  | None => throw (Error "bad decrypt")
  end.

Definition decryptRestrictedData (encryptedBlob : string) (dataKeyId : string)
    (iv : option string) (authTag : option string) : JS string :=
  tokenizedData <- decryptConfidentialData encryptedBlob dataKeyId iv authTag ;;
  detokenizeData tokenizedData.

Definition decrypt (encryptedData : EncryptedData) : JS Payload :=
  try_catch
    (let encryptedBlob := encryptedBlob encryptedData in
     let dataKeyId := dataKeyId encryptedData in
     let classification := classification encryptedData in
     let iv := iv encryptedData in
     let authTag := authTag encryptedData in
     decryptedData <-
       match tier_of classification with
       | Some PUBLIC => decryptPublicData encryptedBlob
       | Some INTERNAL => decryptInternalData encryptedBlob dataKeyId
       | Some CONFIDENTIAL => decryptConfidentialData encryptedBlob dataKeyId iv authTag
       | Some RESTRICTED => decryptRestrictedData encryptedBlob dataKeyId iv authTag
       | None => throw (Error ("Unsupported data classification: " +:+ classification))
       end ;;
     match JSON_parse decryptedData with
     | Some value => ret value
     | None => throw (SyntaxError "Unexpected token in JSON")
     end)
    (fun error =>
       console_error_ "Decryption error:" error ;;;
       throw (Error "Failed to decrypt data")).

End Service.

(** ** A reference platform

    A platform to run the service on: a fragment of JSON (no fractions,
    no exponents, escapes of ASCII only), a KMS endpoint that knows the
    EndCrypt key and binds a ciphertext to its encryption context, and a
    password-keyed block cipher with PKCS#7 padding standing where
    OpenSSL's AES is. *)

Module Reference.

Inductive json : Type :=
| JNull
| JBool (b : bool)
| JNumber (n : Z)
| JString (s : string)
| JArray (items : list json)
| JObject (members : list (string * json)).

Definition quote_char : ascii := "034".
Definition backslash : ascii := "092".

Definition escape (c : ascii) : string :=
  if Ascii.eqb c quote_char then String backslash (String quote_char EmptyString)
  else if Ascii.eqb c backslash then String backslash (String backslash EmptyString)
  else if Ascii.eqb c "010" then String backslash "n"
  else if Ascii.eqb c "013" then String backslash "r"
  else if Ascii.eqb c "009" then String backslash "t"
  else if Ascii.eqb c "008" then String backslash "b"
  else if Ascii.eqb c "012" then String backslash "f"
  else if (N_of_ascii c <? 32)%N then String backslash ("u00" +:+ hex_byte c)
  else String c EmptyString.

Fixpoint escape_all (s : string) : string :=
  match s with
  | EmptyString => EmptyString
  | String c rest => escape c +:+ escape_all rest
  end.

Definition quoted (s : string) : string :=
  String quote_char (escape_all s +:+ String quote_char EmptyString).

Fixpoint join (sep : string) (l : list string) : string :=
  match l with
  | [] => EmptyString
  | [x] => x
  | x :: rest => x +:+ sep +:+ join sep rest
  end.

Fixpoint stringify (v : json) : string :=
  match v with
  | JNull => "null"
  | JBool true => "true"
  | JBool false => "false"
  | JNumber n => pretty n
  | JString s => quoted s
  | JArray items => "[" +:+ join "," (List.map stringify items) +:+ "]"
  | JObject members =>
      "{" +:+ join ","
        (List.map (fun m => match m with (k, x) => quoted k +:+ ":" +:+ stringify x end)
           members) +:+ "}"
  end.

Definition is_space (c : ascii) : bool :=
  Ascii.eqb c " " || Ascii.eqb c "009" || Ascii.eqb c "010" || Ascii.eqb c "013".

Fixpoint skip_space (s : string) : string :=
  match s with
  | String c rest => if is_space c then skip_space rest else s
  | EmptyString => s
  end.

Definition digit (c : ascii) : option Z :=
  let n := Z.of_N (N_of_ascii c) in
  if ((48 <=? n) && (n <=? 57))%Z then Some (n - 48)%Z else None.

Fixpoint read_digits (acc : Z) (s : string) : Z * string :=
  match s with
  | String c rest =>
      match digit c with
      | Some d => read_digits (10 * acc + d)%Z rest
      | None => (acc, s)
      end
  | EmptyString => (acc, s)
  end.

(** An integer: no leading zero, and no fraction or exponent after it. *)
Definition read_number (s : string) : option (Z * string) :=
  let (negative, s1) :=
    match s with
    | String "-" rest => (true, rest)
    | _ => (false, s)
    end in
  match s1 with
  | String c rest =>
      match digit c with
      | Some d =>
          let (n, s2) := if (d =? 0)%Z then (0%Z, rest) else read_digits d rest in
          match s2 with
          | String "." _ | String "e" _ | String "E" _ => None
          | String c2 _ =>
              match digit c2 with
              | Some _ => None
              | None => Some (if negative then (- n)%Z else n, s2)
              end
          | EmptyString => Some (if negative then (- n)%Z else n, s2)
          end
      | None => None
      end
  | EmptyString => None
  end.

(** The characters of a string literal after its opening quote. *)
Fixpoint read_string (s : string) : option (string * string) :=
  match s with
  | EmptyString => None
  | String c rest =>
      if Ascii.eqb c quote_char then Some (EmptyString, rest)
      else if Ascii.eqb c backslash then
        match rest with
        | String e rest' =>
            let plain (x : ascii) :=
              match read_string rest' with
              | Some (body, tail) => Some (String x body, tail)
              | None => None
              end in
            if Ascii.eqb e quote_char then plain quote_char
            else if Ascii.eqb e backslash then plain backslash
            else if Ascii.eqb e "/" then plain "/"%char
            else if Ascii.eqb e "n" then plain "010"%char
            else if Ascii.eqb e "r" then plain "013"%char
            else if Ascii.eqb e "t" then plain "009"%char
            else if Ascii.eqb e "b" then plain "008"%char
            else if Ascii.eqb e "f" then plain "012"%char
            else if Ascii.eqb e "u" then
              match rest' with
              | String "0" (String "0" (String h (String l rest''))) =>
                  match unhex h, unhex l, read_string rest'' with
                  | Some hi, Some lo, Some (body, tail) =>
                      if (hi <? 8)%N
                      then Some (String (ascii_of_N (hi * 16 + lo)) body, tail)
                      else None
                  | _, _, _ => None
                  end
              | _ => None
              end
            else None
        | EmptyString => None
        end
      else if (N_of_ascii c <? 32)%N then None
      else
        match read_string rest with
        | Some (body, tail) => Some (String c body, tail)
        | None => None
        end
  end.

Definition expect (word : string) (v : json) (s : string) : option (json * string) :=
  if String.prefix word s
  then Some (v, String.substring (String.length word) (String.length s - String.length word) s)
  else None.

Fixpoint read_value (fuel : nat) (s : string) : option (json * string) :=
  match fuel with
  | O => None
  | S fuel =>
      match skip_space s with
      | EmptyString => None
      | String c rest as s' =>
          if Ascii.eqb c "n" then expect "null" JNull s'
          else if Ascii.eqb c "t" then expect "true" (JBool true) s'
          else if Ascii.eqb c "f" then expect "false" (JBool false) s'
          else if Ascii.eqb c quote_char then
            match read_string rest with
            | Some (body, tail) => Some (JString body, tail)
            | None => None
            end
          else if Ascii.eqb c "[" then
            match skip_space rest with
            | String "]" tail => Some (JArray [], tail)
            | _ =>
                match read_items fuel rest with
                | Some (items, tail) => Some (JArray items, tail)
                | None => None
                end
            end
          else if Ascii.eqb c "{" then
            match skip_space rest with
            | String "}" tail => Some (JObject [], tail)
            | _ =>
                match read_members fuel rest with
                | Some (members, tail) => Some (JObject members, tail)
                | None => None
                end
            end
          else
            match read_number s' with
            | Some (n, tail) => Some (JNumber n, tail)
            | None => None
            end
      end
  end
with read_items (fuel : nat) (s : string) : option (list json * string) :=
  match fuel with
  | O => None
  | S fuel =>
      match read_value fuel s with
      | Some (v, tail) =>
          match skip_space tail with
          | String "," tail' =>
              match read_items fuel tail' with
              | Some (vs, tail'') => Some (v :: vs, tail'')
              | None => None
              end
          | String "]" tail' => Some ([v], tail')
          | _ => None
          end
      | None => None
      end
  end
with read_members (fuel : nat) (s : string) : option (list (string * json) * string) :=
  match fuel with
  | O => None
  | S fuel =>
      match skip_space s with
      | String c rest =>
          if Ascii.eqb c quote_char then
            match read_string rest with
            | Some (key, tail) =>
                match skip_space tail with
                | String ":" tail1 =>
                    match read_value fuel tail1 with
                    | Some (v, tail2) =>
                        match skip_space tail2 with
                        | String "," tail3 =>
                            match read_members fuel tail3 with
                            | Some (ms, tail4) => Some ((key, v) :: ms, tail4)
                            | None => None
                            end
                        | String "}" tail3 => Some ([(key, v)], tail3)
                        | _ => None
                        end
                    | None => None
                    end
                | _ => None
                end
            | None => None
            end
          else None
      | EmptyString => None
      end
  end.

Definition parse (s : string) : option json :=
  match read_value (2 * String.length s + 2) s with
  | Some (v, tail) =>
      match skip_space tail with
      | EmptyString => Some v
      | _ => None
      end
  | None => None
  end.

(** [toISOString]: the proleptic Gregorian date of a day count, then the
    time of day. *)
Definition civil_from_days (days : Z) : Z * Z * Z :=
  let z := (days + 719468)%Z in
  let era := (z / 146097)%Z in
  let doe := (z - era * 146097)%Z in
  let yoe := ((doe - doe / 1460 + doe / 36524 - doe / 146096) / 365)%Z in
  let doy := (doe - (365 * yoe + yoe / 4 - yoe / 100))%Z in
  let mp := ((5 * doy + 2) / 153)%Z in
  let d := (doy - (153 * mp + 2) / 5 + 1)%Z in
  let m := if (mp <? 10)%Z then (mp + 3)%Z else (mp - 9)%Z in
  let y := (yoe + era * 400)%Z in
  (if (m <=? 2)%Z then (y + 1)%Z else y, m, d).

Definition pad (width : nat) (n : Z) : string :=
  let digits := pretty n in
  string_of_list_ascii (replicate (width - String.length digits) "0"%char) +:+ digits.

Definition toISOString (t : Z) : string :=
  let '(y, m, d) := civil_from_days (t / 86400000) in
  let ms := (t mod 86400000)%Z in
  pad 4 y +:+ "-" +:+ pad 2 m +:+ "-" +:+ pad 2 d +:+ "T" +:+
  pad 2 (ms / 3600000) +:+ ":" +:+ pad 2 (ms / 60000 mod 60) +:+ ":" +:+
  pad 2 (ms / 1000 mod 60) +:+ "." +:+ pad 3 (ms mod 1000) +:+ "Z".

Definition xor_byte (a b : ascii) : ascii :=
  ascii_of_N (N.lxor (N_of_ascii a) (N_of_ascii b)).

(** The KMS endpoint.  A ciphertext blob is a digest of the encryption
    context, a zero byte, and the masked plaintext; [Decrypt] recomputes
    the digest from the context it is given and refuses a blob that does
    not start with it. *)
Definition context_digest (ctx : gmap string string) : Buffer :=
  Buffer_from
    (foldr (fun kv acc => kv.1 +:+ "=" +:+ kv.2 +:+ ";" +:+ acc) EmptyString
       (map_to_list ctx)).

Definition mask (b : Buffer) : Buffer := map (xor_byte "090") b.

Definition known_key (keyId : string) : bool :=
  String.eqb keyId ENDCRYPT_KMS_CONFIG_keyId || String.eqb keyId "alias/EndCrypt".

Definition header (ctx : gmap string string) : Buffer :=
  context_digest ctx ++ ["000"%char].

Definition wrap (ctx : gmap string string) (plaintext : Buffer) : Buffer :=
  header ctx ++ mask plaintext.

Definition unwrap (ctx : gmap string string) (blob : Buffer) : option Buffer :=
  if bool_decide (take (length (header ctx)) blob = header ctx)
  then Some (mask (drop (length (header ctx)) blob))
  else None.

Definition encrypt_request (n : nat) (keyId : string) (plaintext : Buffer)
    (ctx : gmap string string) : Reply (option Buffer) :=
  if known_key keyId then Fulfilled (Some (wrap ctx plaintext))
  else Rejected "NotFoundException".

Definition decrypt_request (n : nat) (blob : Buffer) (ctx : gmap string string)
  : Reply (option Buffer) :=
  match unwrap ctx blob with
  | Some plaintext => Fulfilled (Some plaintext)
  | None => Rejected "InvalidCiphertextException"
  end.

Definition fresh_key (n : nat) : Buffer :=
  map (fun i => ascii_of_nat ((n * 131 + i * 29 + 7) mod 256)) (seq 0 32).

Definition generateDataKey_request (n : nat) (keyId keySpec : string)
    (ctx : gmap string string) : Reply (option Buffer * option Buffer) :=
  if negb (known_key keyId) then Rejected "NotFoundException"
  else if negb (String.eqb keySpec "AES_256") then Rejected "ValidationException"
  else Fulfilled (Some (fresh_key n), Some (wrap ctx (fresh_key n))).

Definition enableKeyRotation_request (n : nat) (keyId : string) : Reply unit :=
  if known_key keyId then Fulfilled tt else Rejected "NotFoundException".

(** The cipher: PKCS#7 padding to blocks of sixteen bytes, then every
    byte is combined with the password, repeated.  As with
    [createCipher], the output depends on the password and the data only. *)
Definition keystream (password : Buffer) (n : nat) : Buffer :=
  map (fun i => nth (i mod length password) password "000"%char) (seq 0 n).

Definition pkcs7_pad (data : Buffer) : Buffer :=
  let p := (16 - length data mod 16)%nat in
  data ++ replicate p (ascii_of_nat p).

Definition pkcs7_unpad (data : Buffer) : option Buffer :=
  match data !! (length data - 1)%nat with
  | Some c =>
      let p := nat_of_ascii c in
      if bool_decide (1 <= p <= 16 /\ p <= length data /\
                      drop (length data - p) data = replicate p c)%nat
      then Some (take (length data - p) data)
      else None
  | None => None
  end.

Definition cipher (password data : Buffer) : Buffer :=
  let padded := pkcs7_pad data in
  zip_with xor_byte padded (keystream password (length padded)).

Definition decipher (password data : Buffer) : option Buffer :=
  if bool_decide (data ≠ [] ∧ length data mod 16 = 0)%nat
  then pkcs7_unpad (zip_with xor_byte data (keystream password (length data)))
  else None.

End Reference.

#[export] Instance reference_platform : Platform :=
  mkPlatform Reference.json
    (fun v => Return (Some (Reference.stringify v)))
    Reference.parse
    Reference.toISOString
    Reference.encrypt_request
    Reference.decrypt_request
    Reference.generateDataKey_request
    Reference.enableKeyRotation_request
    Reference.cipher
    Reference.decipher.

Definition reference_entropy (i : nat) : ascii := ascii_of_nat ((i * 73 + 41) mod 256).

(** The world when the module has just been loaded, at time [t0]. *)
Definition boot (NODE_ENV : option string) (t0 : Z) : World :=
  mkWorld ∅ t0 [] reference_entropy 0 0 (initial_encryptionContext NODE_ENV) [].

(** The instance the module exports, [new AWSKMSService()], with the
    default key and time-to-live. *)
Definition kmsService : AWSKMSService :=
  mkAWSKMSService ENDCRYPT_KMS_CONFIG_keyId (15 * 60 * 1000)%Z.

(** The payload of the specification's scenario. *)
Definition transaction : Reference.json :=
  Reference.JObject
    [ ("transactionId", Reference.JString "TXN-001");
      ("amount", Reference.JNumber 1500);
      ("currency", Reference.JString "USD") ].

(** The world the examples start in. *)
Definition start : World := boot None 1700000000000.

(** A context that is not the configured one. *)
Definition tampered_context : gmap string string :=
  {[ "application" := "someone-else" ]}.

(** An envelope whose key was never in the cache. *)
Definition orphan_envelope : EncryptedData :=
  mkEncryptedData "00" "no-such-key" SharedConfigContext "aes-256-cbc"
    (tier_value CONFIDENTIAL) "2023-11-14T22:13:20.000Z" (Some "00") (Some "sha256-hmac").

(** Running a computation for its outcome, and for its world. *)
Definition outcome {A} (m : JS A) (w : World) : Outcome A := (m w).1.
Definition after {A} (m : JS A) (w : World) : World := (m w).2.

(** The hypotheses under which a platform is a faithful one. *)

Section Faithful.

Context {pf : Platform}.

(** [P] is JSON-serializable: it has a text and the text parses back to it. *)
Definition serializable (P : Payload) (text : string) : Prop :=
  JSON_stringify P = Return (Some text) /\ JSON_parse text = Some P.

(** What KMS encrypted under a context, it decrypts under that context. *)
Definition kms_faithful : Prop :=
  forall n n' keyId plaintext ctx blob,
    kms_encrypt n keyId plaintext ctx = Fulfilled (Some blob) ->
    kms_decrypt n' blob ctx = Fulfilled (Some plaintext).

(** The decipher undoes the cipher under the same password. *)
Definition cipher_faithful : Prop :=
  forall password data,
    decipher_aes_256_cbc password (cipher_aes_256_cbc password data) = Some data.

(** No JSON text starts with the letter T. *)
Definition parser_rejects_tokens : Prop :=
  forall rest, JSON_parse ("TOKEN:" +:+ rest) = None.

End Faithful.

(** Boolean tests used to settle facts about bytes by enumeration. *)
Definition option_is (o : option N) (n : N) : bool :=
  match o with
  | Some m => N.eqb m n
  | None => false
  end.

(** ** The rest of the module: key metadata and the secrets service *)

(** [KeyMetadata] as [kms.describeKey] replies it: any field may be missing. *)
Record DescribeKeyMetadata : Type := mkDescribeKeyMetadata {
  KeyId : option string;
  KeyState : option string;
  CreationDate : option Z;
  Description : option string;
  KeyUsage : option string
}.

(** [interface KeyMetadata] *)
Module Metadata.
Record KeyMetadata : Type := mkKeyMetadata {
  keyId : string;
  state : string;
  creationDate : Z;
  lastRotationDate : option Z;
  nextRotationDate : option Z;
  description : string;
  usage : string
}.
End Metadata.

(** [kms.describeKey({KeyId})], giving [KeyMetadata] *)
Class KeyDirectory : Type := mkKeyDirectory {
  kms_describeKey : nat -> string -> Reply (option DescribeKeyMetadata)
}.

(** The Secrets Manager endpoint.  Its store is remote state, handed from
    call to call; a rejected request leaves it as it was. *)
Class SecretStore : Type := mkSecretStore {
  Vault : Type;
  (** [createSecret({Name, SecretString, Description})] *)
  sm_createSecret : Vault -> string -> option string -> string -> Reply Vault;
  (** [getSecretValue({SecretId, VersionStage})], giving [SecretString] *)
  sm_getSecretValue : Vault -> string -> string -> Reply (option string);
  (** [rotateSecret({SecretId, ForceRotateImmediately})] *)
  sm_rotateSecret : Vault -> string -> bool -> Reply Vault
}.

(** [await secretsManager.op(params).promise()] *)
Definition sm_request {A} (reply : Reply A) : JS A :=
  match reply with
  | Fulfilled a => ret a
  | Rejected code => throw (RemoteError code)
  end.

Section Metadata.

Context {dir : KeyDirectory}.

Definition getKeyMetadata (keyId : string) : JS Metadata.KeyMetadata :=
  try_catch
    (result <- kms_request (fun n => kms_describeKey n keyId) ;;
     match result with
     | Some metadata =>
         creationDate <- match CreationDate metadata with
                         | Some date => ret date
                         | None => Date_now
                         end ;;
         ret (Metadata.mkKeyMetadata
                (or_else (KeyId metadata) EmptyString)
                (or_else (KeyState metadata) EmptyString)
                creationDate None None
                (or_else (Description metadata) EmptyString)
                (or_else (KeyUsage metadata) EmptyString))
     | None => throw (Error "Key metadata not found")
     end)
    (fun error =>
       console_error_ "Key metadata error:" error ;;;
       throw (Error "Failed to retrieve key metadata")).

End Metadata.

(** ** class AWSSecretsService

    A method that changes the store returns the new store. *)

Section Secrets.

Context {pf : Platform} {sm : SecretStore}.

Definition storeSecret (secretName : string) (secretValue : Payload) (vault : Vault)
  : JS Vault :=
  try_catch
    (SecretString <- lift (JSON_stringify secretValue) ;;
     sm_request (sm_createSecret vault secretName SecretString
                   ("EndCrypt application secret: " +:+ secretName)))
    (fun error =>
       console_error_ "Secret storage error:" error ;;;
       throw (Error "Failed to store secret")).

Definition getSecret (secretName : string) (vault : Vault) : JS Payload :=
  try_catch
    (result <- sm_request (sm_getSecretValue vault secretName "AWSCURRENT") ;;
     match result with
     | Some SecretString =>
         if String.eqb SecretString EmptyString
         then throw (Error "Secret not found")
         else match JSON_parse SecretString with
              | Some value => ret value
              | None => throw (SyntaxError "Unexpected token in JSON")
              end
     | None => throw (Error "Secret not found")
     end)
    (fun error =>
       console_error_ "Secret retrieval error:" error ;;;
       throw (Error "Failed to retrieve secret")).

Definition rotateSecret (secretName : string) (vault : Vault) : JS Vault :=
  try_catch
    (sm_request (sm_rotateSecret vault secretName true))
    (fun error =>
       console_error_ "Secret rotation error:" error ;;;
       throw (Error "Failed to rotate secret")).

(** What the store was given under a name, it gives back as the current
    version of that name. *)
Definition store_faithful : Prop :=
  forall vault name text description vault',
    sm_createSecret vault name (Some text) description = Fulfilled vault' ->
    sm_getSecretValue vault' name "AWSCURRENT" = Fulfilled (Some text).

End Secrets.

(** ** What a method may change *)

(** [R] relates the world before a computation to the world after it,
    whatever the outcome. *)
Definition steps (R : World -> World -> Prop) {A} (m : JS A) : Prop :=
  forall w o w', m w = (o, w') -> R w w'.

(** Only the console and the count of KMS requests may differ. *)
Definition undisturbed (w w' : World) : Prop :=
  keyCache w' = keyCache w /\ timers w' = timers w /\ clock w' = clock w /\
  configContext w' = configContext w /\ drawn w' = drawn w /\ entropy w' = entropy w.

(** The cache and its timers are the same. *)
Definition same_cache (w w' : World) : Prop :=
  keyCache w' = keyCache w /\ timers w' = timers w.

(** Every entry of the cache is filed under its own identifier, and has a
    timer pending at its expiry. *)
Definition cache_sound (w : World) : Prop :=
  forall k dk,
    keyCache w !! k = Some dk -> keyId dk = k /\ (expiresAt dk, k) ∈ timers w.

(** An invariant is kept. *)
Definition keeps (I : World -> Prop) (w w' : World) : Prop := I w -> I w'.

(** The worlds one instance of the service can be in: it starts with an
    empty cache and no timer, its methods are called in any order with any
    arguments, time passes, and the event loop runs the timers that are
    due. *)
Inductive reachable {pf : Platform} (this : AWSKMSService) : World -> Prop :=
| reach_start w :
    keyCache w = ∅ -> timers w = [] -> reachable this w
| reach_encrypt w P c o w' :
    reachable this w -> encrypt this P c w = (o, w') -> reachable this w'
| reach_decrypt w e o w' :
    reachable this w -> decrypt e w = (o, w') -> reachable this w'
| reach_generateDataKey w o w' :
    reachable this w -> generateDataKey this w = (o, w') -> reachable this w'
| reach_rotateKeys w o w' :
    reachable this w -> rotateKeys this w = (o, w') -> reachable this w'
| reach_tick w d :
    reachable this w -> (0 <= d)%Z -> reachable this (tick d w)
| reach_run_timers w :
    reachable this w -> reachable this (run_timers w).

(** ** More of the reference platform *)


(** The directory knows the EndCrypt key, created at a fixed date, and
    reports no description for it. *)
Definition reference_directory : KeyDirectory :=
  mkKeyDirectory (fun n keyId =>
    if Reference.known_key keyId
    then Fulfilled (Some (mkDescribeKeyMetadata (Some ENDCRYPT_KMS_CONFIG_keyId)
                            (Some "Enabled") (Some 1690000000000%Z) None
                            (Some "ENCRYPT_DECRYPT")))
    else Rejected "NotFoundException").

(** The secret store: a map from names to secret strings.  A name is
    created once, and a secret needs a string. *)
Definition reference_store : SecretStore :=
  mkSecretStore (gmap string string)
    (fun vault name SecretString description =>
       match SecretString, vault !! name with
       | None, _ => Rejected "InvalidRequestException"
       | Some _, Some _ => Rejected "ResourceExistsException"
       | Some text, None => Fulfilled (<[name := text]> vault)
       end)
    (fun vault name stage =>
       match vault !! name with
       | Some text =>
           if String.eqb stage "AWSCURRENT" then Fulfilled (Some text)
           else Rejected "ResourceNotFoundException"
       | None => Rejected "ResourceNotFoundException"
       end)
    (fun vault name force =>
       match vault !! name with
       | Some _ => Fulfilled vault
       | None => Rejected "ResourceNotFoundException"
       end).

(** A secret of the examples. *)
Definition api_credentials : Reference.json :=
  Reference.JObject
    [ ("user", Reference.JString "endcrypt-service");
      ("retries", Reference.JNumber 3) ].

(** * Part II: properties *)

(** ** Bytes, base64 and hex *)

Section CodecFacts.

Local Open Scope N_scope.

Lemma all_ascii_complete (a : ascii) : In a all_ascii.
Proof.
  unfold all_ascii. rewrite <- (ascii_nat_embedding a).
  apply in_map, in_seq. pose proof (nat_ascii_bounded a). lia.
Qed.

Lemma forall_ascii (f : ascii -> bool) :
  forallb f all_ascii = true -> forall a, f a = true.
Proof.
  intros H a. rewrite forallb_forall in H. apply H, all_ascii_complete.
Qed.

Lemma forall_ascii2 (f : ascii -> ascii -> bool) :
  forallb (fun a => forallb (f a) all_ascii) all_ascii = true ->
  forall a b, f a b = true.
Proof.
  intros H a b. apply forall_ascii.
  apply (forall_ascii (fun a => forallb (f a) all_ascii) H).
Qed.

Lemma option_is_eq o n : option_is o n = true -> o = Some n.
Proof. destruct o; simpl; [intros H; apply N.eqb_eq in H; congruence | discriminate]. Qed.

Ltac by_enumeration1 f :=
  let H := fresh in
  assert (H : forallb f all_ascii = true) by (vm_compute; reflexivity);
  intros; apply (forall_ascii f H).

Ltac by_enumeration2 f :=
  let H := fresh in
  assert (H : forallb (fun a => forallb (f a) all_ascii) all_ascii = true)
    by (vm_compute; reflexivity);
  intros; apply (forall_ascii2 f H).

Lemma unbase64_sextet1 a :
  unbase64 (base64_char (sextet1 (N_of_ascii a))) = Some (sextet1 (N_of_ascii a)).
Proof.
  apply option_is_eq. revert a.
  by_enumeration1 (fun a => option_is (unbase64 (base64_char (sextet1 (N_of_ascii a))))
                              (sextet1 (N_of_ascii a))).
Qed.

Lemma unbase64_sextet2 a b :
  unbase64 (base64_char (sextet2 (N_of_ascii a) (N_of_ascii b)))
  = Some (sextet2 (N_of_ascii a) (N_of_ascii b)).
Proof.
  apply option_is_eq. revert a b.
  by_enumeration2 (fun a b =>
    option_is (unbase64 (base64_char (sextet2 (N_of_ascii a) (N_of_ascii b))))
      (sextet2 (N_of_ascii a) (N_of_ascii b))).
Qed.

Lemma unbase64_sextet3 a b :
  unbase64 (base64_char (sextet3 (N_of_ascii a) (N_of_ascii b)))
  = Some (sextet3 (N_of_ascii a) (N_of_ascii b)).
Proof.
  apply option_is_eq. revert a b.
  by_enumeration2 (fun a b =>
    option_is (unbase64 (base64_char (sextet3 (N_of_ascii a) (N_of_ascii b))))
      (sextet3 (N_of_ascii a) (N_of_ascii b))).
Qed.

Lemma unbase64_sextet4 a :
  unbase64 (base64_char (sextet4 (N_of_ascii a))) = Some (sextet4 (N_of_ascii a)).
Proof.
  apply option_is_eq. revert a.
  by_enumeration1 (fun a => option_is (unbase64 (base64_char (sextet4 (N_of_ascii a))))
                              (sextet4 (N_of_ascii a))).
Qed.

Lemma octet1_sextets a b :
  octet1 (sextet1 (N_of_ascii a)) (sextet2 (N_of_ascii a) (N_of_ascii b)) = a.
Proof.
  apply Ascii.eqb_eq. revert a b.
  by_enumeration2 (fun a b =>
    Ascii.eqb (octet1 (sextet1 (N_of_ascii a)) (sextet2 (N_of_ascii a) (N_of_ascii b))) a).
Qed.

Lemma octet3_sextets b c :
  octet3 (sextet3 (N_of_ascii b) (N_of_ascii c)) (sextet4 (N_of_ascii c)) = c.
Proof.
  apply Ascii.eqb_eq. revert b c.
  by_enumeration2 (fun b c =>
    Ascii.eqb (octet3 (sextet3 (N_of_ascii b) (N_of_ascii c)) (sextet4 (N_of_ascii c))) c).
Qed.

(** The middle byte is split over two sextets: its high nibble is the low
    nibble of the second sextet, its low nibble the high bits of the third. *)
Lemma sextet2_low a b :
  N.land (sextet2 (N_of_ascii a) (N_of_ascii b)) 15 = N.shiftr (N_of_ascii b) 4.
Proof.
  apply N.eqb_eq. revert a b.
  by_enumeration2 (fun a b =>
    N.land (sextet2 (N_of_ascii a) (N_of_ascii b)) 15 =? N.shiftr (N_of_ascii b) 4).
Qed.

Lemma sextet3_high b c :
  N.shiftr (N.land (sextet3 (N_of_ascii b) (N_of_ascii c)) 60) 2 = N.land (N_of_ascii b) 15.
Proof.
  apply N.eqb_eq. revert b c.
  by_enumeration2 (fun b c =>
    N.shiftr (N.land (sextet3 (N_of_ascii b) (N_of_ascii c)) 60) 2 =? N.land (N_of_ascii b) 15).
Qed.

Lemma nibbles_join b :
  ascii_of_N (N.lor (N.shiftl (N.shiftr (N_of_ascii b) 4) 4) (N.land (N_of_ascii b) 15)) = b.
Proof.
  apply Ascii.eqb_eq. revert b.
  by_enumeration1 (fun b =>
    Ascii.eqb (ascii_of_N (N.lor (N.shiftl (N.shiftr (N_of_ascii b) 4) 4)
                             (N.land (N_of_ascii b) 15))) b).
Qed.

Lemma octet2_sextets a b c :
  octet2 (sextet2 (N_of_ascii a) (N_of_ascii b)) (sextet3 (N_of_ascii b) (N_of_ascii c)) = b.
Proof. unfold octet2. rewrite sextet2_low, sextet3_high. apply nibbles_join. Qed.

Lemma list_ind3 {A} (P : list A -> Prop) :
  P [] -> (forall a, P [a]) -> (forall a b, P [a; b]) ->
  (forall a b c l, P l -> P (a :: b :: c :: l)) ->
  forall l, P l.
Proof.
  intros H0 H1 H2 H3. fix IH 1.
  intros [|a [|b [|c l]]]; [exact H0 | apply H1 | apply H2 | apply H3, IH].
Qed.

Lemma base64_sextets_cons c d rest :
  unbase64 c = Some d -> base64_sextets (String c rest) = d :: base64_sextets rest.
Proof. intros H. simpl. now rewrite H. Qed.

Lemma base64_sextets_encode1 a :
  base64_sextets (base64_encode [a])
  = [sextet1 (N_of_ascii a); sextet2 (N_of_ascii a) (N_of_ascii "000")].
Proof.
  change (base64_encode [a]) with
    (String (base64_char (sextet1 (N_of_ascii a)))
       (String (base64_char (sextet2 (N_of_ascii a) (N_of_ascii "000"))) "==")).
  rewrite (base64_sextets_cons _ _ _ (unbase64_sextet1 a)).
  rewrite (base64_sextets_cons _ _ _ (unbase64_sextet2 a "000")).
  reflexivity.
Qed.

Lemma base64_sextets_encode2 a b :
  base64_sextets (base64_encode [a; b])
  = [sextet1 (N_of_ascii a); sextet2 (N_of_ascii a) (N_of_ascii b);
     sextet3 (N_of_ascii b) (N_of_ascii "000")].
Proof.
  change (base64_encode [a; b]) with
    (String (base64_char (sextet1 (N_of_ascii a)))
       (String (base64_char (sextet2 (N_of_ascii a) (N_of_ascii b)))
          (String (base64_char (sextet3 (N_of_ascii b) (N_of_ascii "000"))) "="))).
  rewrite (base64_sextets_cons _ _ _ (unbase64_sextet1 a)).
  rewrite (base64_sextets_cons _ _ _ (unbase64_sextet2 a b)).
  rewrite (base64_sextets_cons _ _ _ (unbase64_sextet3 b "000")).
  reflexivity.
Qed.

Lemma base64_sextets_encode3 a b c rest :
  base64_sextets (base64_encode (a :: b :: c :: rest))
  = sextet1 (N_of_ascii a) :: sextet2 (N_of_ascii a) (N_of_ascii b)
    :: sextet3 (N_of_ascii b) (N_of_ascii c) :: sextet4 (N_of_ascii c)
    :: base64_sextets (base64_encode rest).
Proof.
  change (base64_encode (a :: b :: c :: rest)) with
    (String (base64_char (sextet1 (N_of_ascii a)))
       (String (base64_char (sextet2 (N_of_ascii a) (N_of_ascii b)))
          (String (base64_char (sextet3 (N_of_ascii b) (N_of_ascii c)))
             (String (base64_char (sextet4 (N_of_ascii c))) (base64_encode rest))))).
  rewrite (base64_sextets_cons _ _ _ (unbase64_sextet1 a)).
  rewrite (base64_sextets_cons _ _ _ (unbase64_sextet2 a b)).
  rewrite (base64_sextets_cons _ _ _ (unbase64_sextet3 b c)).
  rewrite (base64_sextets_cons _ _ _ (unbase64_sextet4 c)).
  reflexivity.
Qed.

(** [Buffer.from(buf.toString('base64'), 'base64')] is [buf]. *)
Lemma base64_decode_encode (b : Buffer) : base64_decode (base64_encode b) = b.
Proof.
  unfold base64_decode. induction b as [|a|a b|a b c rest IH] using list_ind3.
  - reflexivity.
  - rewrite base64_sextets_encode1. cbn [base64_octets].
    now rewrite octet1_sextets.
  - rewrite base64_sextets_encode2. cbn [base64_octets].
    now rewrite octet1_sextets, octet2_sextets.
  - rewrite base64_sextets_encode3. cbn [base64_octets].
    now rewrite octet1_sextets, octet2_sextets, octet3_sextets, IH.
Qed.

Lemma unhex_high a :
  unhex (hex_char (N.shiftr (N_of_ascii a) 4)) = Some (N.shiftr (N_of_ascii a) 4).
Proof.
  apply option_is_eq. revert a.
  by_enumeration1 (fun a => option_is (unhex (hex_char (N.shiftr (N_of_ascii a) 4)))
                              (N.shiftr (N_of_ascii a) 4)).
Qed.

Lemma unhex_low a :
  unhex (hex_char (N.land (N_of_ascii a) 15)) = Some (N.land (N_of_ascii a) 15).
Proof.
  apply option_is_eq. revert a.
  by_enumeration1 (fun a => option_is (unhex (hex_char (N.land (N_of_ascii a) 15)))
                              (N.land (N_of_ascii a) 15)).
Qed.

(** [Buffer.from(buf.toString('hex'), 'hex')] is [buf]. *)
Lemma hex_decode_encode (b : Buffer) : hex_decode (hex_encode b) = b.
Proof.
  induction b as [|a rest IH]; [reflexivity|].
  change (hex_encode (a :: rest)) with
    (String (hex_char (N.shiftr (N_of_ascii a) 4))
       (String (hex_char (N.land (N_of_ascii a) 15)) (hex_encode rest))).
  cbn [hex_decode].
  rewrite unhex_high, unhex_low, nibbles_join, IH. reflexivity.
Qed.

(** [Buffer.from(s).toString()] is [s]. *)
Lemma Buffer_toString_from (s : string) : Buffer_toString (Buffer_from s) = s.
Proof. apply string_of_list_ascii_of_string. Qed.

End CodecFacts.

(** ** Colons, [split], and the token format *)

Section TokenFacts.

Lemma string_get_forallb (p : ascii -> bool) (s : string) (k : nat) (c : ascii) :
  string_forallb p s = true -> String.get k s = Some c -> p c = true.
Proof.
  revert k. induction s as [|x s IH]; intros k Hall Hget; [discriminate|].
  simpl in Hall. apply andb_prop in Hall as [Hx Hs].
  destruct k; simpl in Hget; [now inversion Hget; subst | eauto].
Qed.

Lemma not_colon_base64_char (n : N) : not_colon (base64_char n) = true.
Proof.
  unfold base64_char.
  destruct (String.get (N.to_nat n) base64_alphabet) eqn:E; [|reflexivity].
  now apply (string_get_forallb not_colon base64_alphabet (N.to_nat n)).
Qed.

Lemma not_colon_hex_char (n : N) : not_colon (hex_char n) = true.
Proof.
  unfold hex_char.
  destruct (String.get (N.to_nat n) "0123456789abcdef") eqn:E; [|reflexivity].
  now apply (string_get_forallb not_colon "0123456789abcdef" (N.to_nat n)).
Qed.

Lemma no_colon_app (a b : string) : no_colon (a +:+ b) = no_colon a && no_colon b.
Proof.
  unfold no_colon. induction a as [|c a IH]; simpl; [reflexivity|].
  now rewrite IH, andb_assoc.
Qed.

Lemma no_colon_base64_encode (b : Buffer) : no_colon (base64_encode b) = true.
Proof.
  induction b as [|x|x y|x y z rest IH] using list_ind3; [reflexivity| | |].
  - unfold no_colon. cbn [base64_encode string_forallb].
    now rewrite !not_colon_base64_char.
  - unfold no_colon. cbn [base64_encode string_forallb].
    now rewrite !not_colon_base64_char.
  - unfold no_colon in *. cbn [base64_encode string_forallb].
    now rewrite !not_colon_base64_char, IH.
Qed.

Lemma no_colon_hex_encode (b : Buffer) : no_colon (hex_encode b) = true.
Proof.
  induction b as [|a rest IH]; [reflexivity|].
  cbn [hex_encode]. rewrite no_colon_app, IH, andb_true_r.
  unfold no_colon, hex_byte. cbn [string_forallb].
  now rewrite !not_colon_hex_char.
Qed.

(** A UUID is hex digits and dashes. *)
Lemma no_colon_uuid_format (b : Buffer) : no_colon (uuid_format b) = true.
Proof.
  unfold uuid_format. rewrite !no_colon_app, !no_colon_hex_encode. reflexivity.
Qed.

Lemma split_before_colon (a rest : string) :
  no_colon a = true -> split ":" (a +:+ String ":" rest) = a :: split ":" rest.
Proof.
  unfold no_colon. induction a as [|c a IH]; intros H; [reflexivity|].
  simpl in H. apply andb_prop in H as [Hc Ha].
  change (String c a +:+ String ":" rest) with (String c (a +:+ String ":" rest)).
  cbn [split]. unfold not_colon in Hc.
  apply negb_true_iff in Hc. rewrite Hc. now rewrite (IH Ha).
Qed.

Lemma split_without_colon (a : string) : no_colon a = true -> split ":" a = [a].
Proof.
  unfold no_colon. induction a as [|c a IH]; intros H; [reflexivity|].
  simpl in H. apply andb_prop in H as [Hc Ha].
  cbn [split]. unfold not_colon in Hc.
  apply negb_true_iff in Hc. rewrite Hc. now rewrite (IH Ha).
Qed.

(** The three parts of a token. *)
Lemma split_token (token payload : string) :
  no_colon token = true -> no_colon payload = true ->
  split ":" ("TOKEN:" +:+ token +:+ ":" +:+ payload) = ["TOKEN"; token; payload].
Proof.
  intros Ht Hp.
  change ("TOKEN:" +:+ token +:+ ":" +:+ payload)
    with ("TOKEN" +:+ String ":" (token +:+ String ":" payload)).
  rewrite split_before_colon by reflexivity.
  rewrite split_before_colon by assumption.
  now rewrite split_without_colon.
Qed.

Lemma base64_encode_empty (b : Buffer) : base64_encode b = EmptyString -> b = [].
Proof. destruct b as [|x [|y [|z rest]]]; [reflexivity | discriminate..]. Qed.

Lemma Buffer_from_empty (s : string) : Buffer_from s = [] -> s = EmptyString.
Proof. destruct s; [reflexivity | discriminate]. Qed.

Lemma startsWith_token (rest : string) : startsWith ("TOKEN:" +:+ rest) "TOKEN:" = true.
Proof. unfold startsWith. simpl. destruct rest; reflexivity. Qed.

(** What [detokenizeData] does to a token built by [tokenizeData]: it
    decodes the third part unless that part is the empty string, in which
    case the token itself comes back. *)
Lemma detokenizeData_token (token : string) (data : Buffer) (w : World) :
  no_colon token = true ->
  detokenizeData ("TOKEN:" +:+ token +:+ ":" +:+ base64_encode data) w
  = (Return (match data with
             | [] => "TOKEN:" +:+ token +:+ ":"
             | _ => Buffer_toString data
             end), w).
Proof.
  intros Ht. unfold detokenizeData.
  rewrite startsWith_token.
  rewrite (split_token token (base64_encode data) Ht (no_colon_base64_encode data)).
  cbn [lookup list_lookup length Nat.leb andb].
  destruct (String.eqb (base64_encode data) EmptyString) eqn:E.
  - apply String.eqb_eq in E. pose proof (base64_encode_empty _ E) as ->.
    reflexivity.
  - cbn [negb]. rewrite base64_decode_encode.
    destruct data; [discriminate E | reflexivity].
Qed.

Lemma tokenizeData_run (s : string) (w : World) :
  tokenizeData (Some s) w
  = (Return ("TOKEN:" +:+ uuid_format (map (entropy w) (seq (drawn w) 16)) +:+ ":"
             +:+ base64_encode (Buffer_from s)),
     set_drawn (drawn w + 16) w).
Proof. reflexivity. Qed.

(** For every string but the empty one, detokenizing the token gives the
    string back. *)
Lemma detokenize_tokenize (s : string) (w : World) :
  s <> EmptyString ->
  outcome (tokenized <- tokenizeData (Some s) ;; detokenizeData tokenized) w = Return s.
Proof.
  intros Hs. unfold outcome, bind. rewrite tokenizeData_run.
  rewrite detokenizeData_token by apply no_colon_uuid_format.
  cbn [fst]. destruct (Buffer_from s) eqn:E.
  - now apply Buffer_from_empty in E.
  - rewrite <- E. now rewrite Buffer_toString_from.
Qed.

(** C5, at the empty string: the token of the empty string has an empty
    third part, [detokenizeData] takes the empty part for a missing one
    and hands the token back unchanged, so the round trip does not
    return the empty string. *)
Theorem detokenize_tokenize_empty (w : World) :
  outcome (tokenized <- tokenizeData (Some EmptyString) ;; detokenizeData tokenized) w
  = outcome (tokenizeData (Some EmptyString)) w
  /\ outcome (tokenized <- tokenizeData (Some EmptyString) ;; detokenizeData tokenized) w
     <> Return EmptyString.
Proof.
  unfold outcome, bind. rewrite tokenizeData_run.
  change (base64_encode (Buffer_from EmptyString)) with (base64_encode []).
  rewrite detokenizeData_token by apply no_colon_uuid_format.
  cbn [fst]. split; [reflexivity | discriminate].
Qed.

End TokenFacts.

(** ** Running the monad *)

Section MonadFacts.

Lemma bind_Return {A B} (m : JS A) (k : A -> JS B) (w w' : World) (b : B) :
  bind m k w = (Return b, w') ->
  exists a w0, m w = (Return a, w0) /\ k a w0 = (Return b, w').
Proof.
  unfold bind. destruct (m w) as [[a|e] w0]; intros H; [eauto | discriminate].
Qed.

Lemma bind_run {A B} (m : JS A) (k : A -> JS B) (w w0 : World) (a : A) :
  m w = (Return a, w0) -> bind m k w = k a w0.
Proof. unfold bind. now intros ->. Qed.

Lemma bind_throw {A B} (m : JS A) (k : A -> JS B) (w w0 : World) (e : Exn) :
  m w = (Throw e, w0) -> bind m k w = (Throw e, w0).
Proof. unfold bind. now intros ->. Qed.

(** A handler that logs and rethrows never turns a failure into a result. *)
Lemma try_catch_rethrow_Return {A} (m : JS A) (label : string) (e' : Exn)
    (w w' : World) (a : A) :
  try_catch m (fun error => console_error_ label error ;;; throw e') w = (Return a, w') ->
  m w = (Return a, w').
Proof.
  unfold try_catch. destruct (m w) as [[x|e] w0]; [trivial | discriminate].
Qed.

Lemma try_catch_run {A} (m : JS A) (h : Exn -> JS A) (w w' : World) (a : A) :
  m w = (Return a, w') -> try_catch m h w = (Return a, w').
Proof. unfold try_catch. now intros ->. Qed.

Lemma try_catch_rethrow {A} (m : JS A) (label : string) (e e' : Exn) (w w0 : World) :
  m w = (Throw e, w0) ->
  try_catch m (fun error => console_error_ label error ;;; throw e') w
  = (Throw e', set_console (console_error label e :: console w0) w0).
Proof. unfold try_catch. now intros ->. Qed.

(** Whatever happens inside, the caller of such a block sees a result or [e']. *)
Lemma try_catch_rethrow_cases {A} (m : JS A) (label : string) (e' : Exn) (w : World) :
  (exists a w', try_catch m (fun error => console_error_ label error ;;; throw e') w
                = (Return a, w'))
  \/ (exists w', try_catch m (fun error => console_error_ label error ;;; throw e') w
                = (Throw e', w')).
Proof.
  unfold try_catch. destruct (m w) as [[x|e] w0]; [left | right]; eauto.
Qed.

End MonadFacts.

(** ** The strategies, run *)

Section ServiceFacts.

Context {pf : Platform}.
Variable this : AWSKMSService.

Lemma tier_of_value (T : DataClassification) : tier_of (tier_value T) = Some T.
Proof. destruct T; reflexivity. Qed.

Lemma tier_of_Some (c : string) (T : DataClassification) :
  tier_of c = Some T -> c = tier_value T.
Proof.
  unfold tier_of.
  destruct (String.eqb c "public") eqn:E1;
    [apply String.eqb_eq in E1; intros [= <-]; exact E1|].
  destruct (String.eqb c "internal") eqn:E2;
    [apply String.eqb_eq in E2; intros [= <-]; exact E2|].
  destruct (String.eqb c "confidential") eqn:E3;
    [apply String.eqb_eq in E3; intros [= <-]; exact E3|].
  destruct (String.eqb c "restricted") eqn:E4;
    [apply String.eqb_eq in E4; intros [= <-]; exact E4 | discriminate].
Qed.

Lemma encryptPublicData_Return data ts w e w' :
  encryptPublicData data ts w = (Return e, w') ->
  exists s, data = Some s /\ w' = w /\
    e = mkEncryptedData (base64_encode (Buffer_from s)) "public" SharedConfigContext
          "base64" (tier_value PUBLIC) ts None None.
Proof.
  destruct data as [s|]; [|discriminate].
  intros [= <- <-]. eauto.
Qed.

Lemma encryptInternalData_Return data ts w e w' :
  encryptInternalData this data ts w = (Return e, w') ->
  exists s blob,
    data = Some s /\
    kms_encrypt (kmsRequests w) (customerMasterKeyId this) (Buffer_from s) (configContext w)
    = Fulfilled (Some blob) /\
    w' = set_kmsRequests (S (kmsRequests w)) w /\
    e = mkEncryptedData (base64_encode blob) (customerMasterKeyId this) SharedConfigContext
          "aws-kms" (tier_value INTERNAL) ts None None.
Proof.
  destruct data as [s|]; [|discriminate].
  unfold encryptInternalData, bind, Buffer_from_any, ret,
    ENCRYPTION_CONFIG_encryptionContext, kms_request, defined.
  destruct (kms_encrypt _ _ _ _) as [[blob|]|code] eqn:E; [|discriminate..].
  intros [= <- <-]. exists s, blob. auto.
Qed.

Lemma generateDataKey_Return w dek w' :
  generateDataKey this w = (Return dek, w') ->
  exists Plaintext CiphertextBlob,
    kms_generateDataKey (kmsRequests w) (customerMasterKeyId this)
      ENCRYPTION_CONFIG_keySpec (configContext w)
    = Fulfilled (Some Plaintext, Some CiphertextBlob) /\
    dek = issued this w Plaintext CiphertextBlob /\
    w' = after_issue this w dek.
Proof.
  intros H. apply try_catch_rethrow_Return in H. revert H.
  unfold bind, ENCRYPTION_CONFIG_encryptionContext, kms_request.
  destruct (kms_generateDataKey _ _ _ _) as [[[pt|] [cb|]]|code] eqn:E;
    try discriminate.
  intros [= <- <-]. exists pt, cb. auto.
Qed.

Lemma generateDataKey_world w dek w' :
  generateDataKey this w = (Return dek, w') ->
  keyCache w' !! keyId dek = Some dek /\ clock w' = clock w /\
  configContext w' = configContext w.
Proof.
  intros H. apply generateDataKey_Return in H as (pt & cb & _ & _ & ->).
  unfold after_issue. cbn [keyCache clock configContext].
  split; [apply lookup_insert_eq | split; reflexivity].
Qed.

Lemma encryptConfidentialData_Return data ts w e w' :
  encryptConfidentialData this data ts w = (Return e, w') ->
  exists s dek w1,
    data = Some s /\
    generateDataKey this w = (Return dek, w1) /\
    w' = set_drawn (drawn w1 + 16) w1 /\
    e = mkEncryptedData
          (hex_encode (cipher_aes_256_cbc (plaintextKey dek) (Buffer_from s)))
          (keyId dek) SharedConfigContext "aes-256-cbc" (tier_value CONFIDENTIAL) ts
          (Some (hex_encode (map (entropy w1) (seq (drawn w1) 16))))
          (Some "sha256-hmac").
Proof.
  unfold encryptConfidentialData. intros H.
  apply bind_Return in H as (dek & w1 & Hk & H).
  apply bind_Return in H as (iv & w2 & Hiv & H).
  injection Hiv as <- <-.
  destruct data as [s|]; [|discriminate].
  injection H as <- <-. exists s, dek, w1. auto.
Qed.

Lemma encryptRestrictedData_Return data ts w e w' :
  encryptRestrictedData this data ts w = (Return e, w') ->
  exists s,
    data = Some s /\
    encryptConfidentialData this
      (Some ("TOKEN:" +:+ uuid_format (map (entropy w) (seq (drawn w) 16)) +:+ ":"
             +:+ base64_encode (Buffer_from s)))
      ts (set_drawn (drawn w + 16) w) = (Return e, w').
Proof.
  unfold encryptRestrictedData. intros H.
  apply bind_Return in H as (tok & w1 & Ht & H).
  destruct data as [s|]; [|discriminate].
  rewrite tokenizeData_run in Ht. injection Ht as <- <-. eauto.
Qed.

(** [encrypt] returns exactly when the payload has a JSON form, the tier is
    one of the four, and the tier's strategy returns. *)
Lemma encrypt_Return P c w e w' :
  encrypt this P c w = (Return e, w') ->
  exists serializedData T,
    JSON_stringify P = Return serializedData /\
    tier_of c = Some T /\
    match T with
    | PUBLIC => encryptPublicData
    | INTERNAL => encryptInternalData this
    | CONFIDENTIAL => encryptConfidentialData this
    | RESTRICTED => encryptRestrictedData this
    end serializedData (Date_toISOString (clock w)) w = (Return e, w').
Proof.
  intros H. apply try_catch_rethrow_Return in H. revert H.
  unfold bind at 1, lift.
  destruct (JSON_stringify P) as [s|err]; [|discriminate].
  unfold bind at 1, Date_now.
  destruct (tier_of c) as [T|] eqn:E; [|discriminate].
  intros H. exists s, T. repeat split. now destruct T.
Qed.

End ServiceFacts.

(** ** The envelope [encrypt] returns *)

Section EnvelopeFacts.

Context {pf : Platform}.
Variable this : AWSKMSService.

(** The classification written into the envelope, tier by tier: the
    caller's tier, except that the RESTRICTED strategy ends in
    [encryptConfidentialData], which writes CONFIDENTIAL. *)
Lemma encrypt_classification P T w e w' :
  encrypt this P (tier_value T) w = (Return e, w') ->
  classification e
  = tier_value (match T with RESTRICTED => CONFIDENTIAL | _ => T end).
Proof.
  intros H. apply encrypt_Return in H as (s & T' & _ & HT & H).
  rewrite tier_of_value in HT. injection HT as <-.
  destruct T.
  - apply encryptPublicData_Return in H as (? & _ & _ & ->). reflexivity.
  - apply encryptInternalData_Return in H as (? & ? & _ & _ & _ & ->). reflexivity.
  - apply encryptConfidentialData_Return in H as (? & ? & ? & _ & _ & _ & ->).
    reflexivity.
  - apply encryptRestrictedData_Return in H as (? & _ & H).
    apply encryptConfidentialData_Return in H as (? & ? & ? & _ & _ & _ & ->).
    reflexivity.
Qed.

(** C2, at RESTRICTED: the envelope of a payload encrypted at RESTRICTED
    carries the classification "confidential", not "restricted". *)
Theorem restricted_envelope_is_labelled_confidential P w e w' :
  encrypt this P (tier_value RESTRICTED) w = (Return e, w') ->
  classification e = "confidential" /\ classification e <> tier_value RESTRICTED.
Proof.
  intros H. apply encrypt_classification in H. rewrite H. split; [reflexivity | discriminate].
Qed.

(** C3, amended: the algorithm tag of the envelope is "base64" for PUBLIC,
    "aws-kms" for INTERNAL and "aes-256-cbc" for CONFIDENTIAL and
    RESTRICTED. *)
Theorem encrypt_algorithm P T w e w' :
  encrypt this P (tier_value T) w = (Return e, w') ->
  algorithm e
  = match T with
    | PUBLIC => "base64"
    | INTERNAL => "aws-kms"
    | CONFIDENTIAL | RESTRICTED => "aes-256-cbc"
    end.
Proof.
  intros H. apply encrypt_Return in H as (s & T' & _ & HT & H).
  rewrite tier_of_value in HT. injection HT as <-.
  destruct T.
  - apply encryptPublicData_Return in H as (? & _ & _ & ->). reflexivity.
  - apply encryptInternalData_Return in H as (? & ? & _ & _ & _ & ->). reflexivity.
  - apply encryptConfidentialData_Return in H as (? & ? & ? & _ & _ & _ & ->).
    reflexivity.
  - apply encryptRestrictedData_Return in H as (? & _ & H).
    apply encryptConfidentialData_Return in H as (? & ? & ? & _ & _ & _ & ->).
    reflexivity.
Qed.

(** The envelopes of the two block-cipher tiers carry a sixteen-byte [iv]
    in hex and the constant [authTag]. *)
Lemma encrypt_iv_authTag P T w e w' :
  T = CONFIDENTIAL \/ T = RESTRICTED ->
  encrypt this P (tier_value T) w = (Return e, w') ->
  authTag e = Some "sha256-hmac" /\
  exists bytes, length bytes = 16%nat /\ iv e = Some (hex_encode bytes).
Proof.
  intros HT H. apply encrypt_Return in H as (s & T' & _ & HT' & H).
  rewrite tier_of_value in HT'. injection HT' as <-.
  destruct HT as [-> | ->].
  - apply encryptConfidentialData_Return in H as (? & ? & w1 & _ & _ & _ & ->).
    split; [reflexivity|]. eexists. split; [|reflexivity].
    now rewrite length_map, length_seq.
  - apply encryptRestrictedData_Return in H as (? & _ & H).
    apply encryptConfidentialData_Return in H as (? & ? & w1 & _ & _ & _ & ->).
    split; [reflexivity|]. eexists. split; [|reflexivity].
    now rewrite length_map, length_seq.
Qed.

(** C7: a tier outside the enum makes [encrypt] throw, and what the caller
    catches is the one error every failure of [encrypt] ends in,
    "Failed to encrypt data"; the error that names the unsupported
    classification only reaches the console. *)
Theorem unsupported_classification_is_rethrown P c w :
  tier_of c = None ->
  exists w',
    encrypt this P c w = (Throw (Error "Failed to encrypt data"), w') /\
    keyCache w' = keyCache w /\
    (forall s, JSON_stringify P = Return s ->
       console w' = console_error "Encryption error:"
                      (Error ("Unsupported data classification: " +:+ c)) :: console w).
Proof.
  intros Hc. unfold encrypt.
  destruct (JSON_stringify P) as [s|err] eqn:E.
  - eexists. split; [|split].
    + apply try_catch_rethrow. unfold bind, lift, Date_now. rewrite Hc. reflexivity.
    + reflexivity.
    + intros s' _. reflexivity.
  - eexists. split; [|split].
    + apply try_catch_rethrow. unfold bind, lift. reflexivity.
    + reflexivity.
    + intros s' [=].
Qed.

End EnvelopeFacts.

(** ** What [decrypt] reads *)

Section DecryptFacts.

Context {pf : Platform}.

(** [decrypt] is a function of three fields of the envelope: the blob, the
    key identifier and the classification. *)
Lemma decrypt_reads (e e' : EncryptedData) :
  encryptedBlob e = encryptedBlob e' ->
  dataKeyId e = dataKeyId e' ->
  classification e = classification e' ->
  decrypt e = decrypt e'.
Proof. unfold decrypt. intros -> -> ->. reflexivity. Qed.

(** C8: [decryptConfidentialData] receives the [iv] of the envelope and
    does not use it; whatever [iv] the envelope carries, [decrypt] does
    the same thing. *)
Theorem decrypt_ignores_iv (e : EncryptedData) (v : option string) (w : World) :
  decrypt (with_iv v e) w = decrypt e w.
Proof. now rewrite (decrypt_reads (with_iv v e) e). Qed.

(** C10: for an envelope of one of the two block-cipher tiers, any two
    values of [authTag] give the same decryption, and the envelope that
    [encrypt] built carries the constant "sha256-hmac". *)
Theorem decrypt_ignores_authTag (e : EncryptedData) (a b : option string) (w : World) :
  classification e = tier_value CONFIDENTIAL \/ classification e = tier_value RESTRICTED ->
  decrypt (with_authTag a e) w = decrypt (with_authTag b e) w
  /\ (forall this P c w0 w1,
        encrypt this P c w0 = (Return e, w1) -> authTag e = Some "sha256-hmac").
Proof.
  intros Hc. split.
  - now rewrite (decrypt_reads (with_authTag a e) (with_authTag b e)).
  - intros this P c w0 w1 H.
    pose proof H as H'. apply encrypt_Return in H' as (s & T & _ & HT & _).
    apply tier_of_Some in HT. subst c.
    pose proof (encrypt_classification this P T w0 e w1 H) as Hcl.
    assert (HT : T = CONFIDENTIAL \/ T = RESTRICTED).
    { rewrite Hcl in Hc. destruct T, Hc as [Hc|Hc]; try discriminate Hc; auto. }
    exact (proj1 (encrypt_iv_authTag this P T w0 e w1 HT H)).
Qed.

Lemma getOrDecryptDataKey_run (k : string) (w : World) :
  getOrDecryptDataKey k w
  = (match keyCache w !! k with
     | Some cachedKey =>
         if (clock w <? expiresAt cachedKey)%Z then Return cachedKey
         else Throw (Error "Data key decryption not implemented")
     | None => Throw (Error "Data key decryption not implemented")
     end, w).
Proof.
  unfold getOrDecryptDataKey, bind, Date_now.
  destruct (keyCache w !! k) as [dk|]; [|reflexivity].
  now destruct (clock w <? expiresAt dk)%Z.
Qed.

Lemma getOrDecryptDataKey_miss (k : string) (w : World) :
  unavailable w k ->
  getOrDecryptDataKey k w = (Throw (Error "Data key decryption not implemented"), w).
Proof.
  rewrite getOrDecryptDataKey_run. intros [-> | (dk & -> & Hexp)]; [reflexivity|].
  apply Z.ltb_ge in Hexp. now rewrite Hexp.
Qed.

Lemma getOrDecryptDataKey_hit (k : string) (w : World) (dk : DataEncryptionKey) :
  keyCache w !! k = Some dk -> (clock w < expiresAt dk)%Z ->
  getOrDecryptDataKey k w = (Return dk, w).
Proof.
  rewrite getOrDecryptDataKey_run. intros -> Hlt.
  apply Z.ltb_lt in Hlt. now rewrite Hlt.
Qed.

Lemma decrypt_without_key_fails_at (e : EncryptedData) (w : World) :
  classification e = tier_value CONFIDENTIAL \/ classification e = tier_value RESTRICTED ->
  unavailable w (dataKeyId e) ->
  exists w', decrypt e w = (Throw (Error "Failed to decrypt data"), w').
Proof.
  intros Hc Hk. pose proof (getOrDecryptDataKey_miss _ _ Hk) as Hmiss.
  eexists. unfold decrypt. apply try_catch_rethrow. apply bind_throw.
  destruct Hc as [-> | ->]; cbn [tier_of tier_value String.eqb Ascii.eqb Bool.eqb].
  - unfold decryptConfidentialData. apply bind_throw. exact Hmiss.
  - unfold decryptRestrictedData. apply bind_throw.
    unfold decryptConfidentialData. apply bind_throw. exact Hmiss.
Qed.

(** C9: when the key of a CONFIDENTIAL or RESTRICTED envelope is not in the
    cache, or is there and expired, the lookup throws, [decrypt] throws,
    and nothing was issued: the cache, the timers, the random source and
    the count of KMS requests are what they were. *)
Theorem decrypt_without_key_fails (e : EncryptedData) (w : World) :
  classification e = tier_value CONFIDENTIAL \/ classification e = tier_value RESTRICTED ->
  unavailable w (dataKeyId e) ->
  exists w',
    decrypt e w = (Throw (Error "Failed to decrypt data"), w') /\
    (exists err, getOrDecryptDataKey (dataKeyId e) w = (Throw err, w)) /\
    keyCache w' = keyCache w /\ timers w' = timers w /\
    drawn w' = drawn w /\ kmsRequests w' = kmsRequests w.
Proof.
  intros Hc Hk. pose proof (getOrDecryptDataKey_miss _ _ Hk) as Hmiss.
  eexists. split; [|split; [eauto|]].
  - unfold decrypt. apply try_catch_rethrow. apply bind_throw.
    destruct Hc as [-> | ->]; cbn [tier_of tier_value String.eqb Ascii.eqb Bool.eqb].
    + unfold decryptConfidentialData. apply bind_throw. exact Hmiss.
    + unfold decryptRestrictedData. apply bind_throw.
      unfold decryptConfidentialData. apply bind_throw. exact Hmiss.
  - repeat split.
Qed.

Lemma decryptConfidentialData_Return blob k v t w text w' :
  decryptConfidentialData blob k v t w = (Return text, w') ->
  exists dk plain,
    keyCache w !! k = Some dk /\ (clock w < expiresAt dk)%Z /\
    decipher_aes_256_cbc (plaintextKey dk) (hex_decode blob) = Some plain /\
    text = Buffer_toString plain /\ w' = w.
Proof.
  unfold decryptConfidentialData. intros H.
  apply bind_Return in H as (dk & w0 & Hk & H).
  rewrite getOrDecryptDataKey_run in Hk.
  destruct (keyCache w !! k) as [dk'|]; [|discriminate].
  destruct (clock w <? expiresAt dk')%Z eqn:Hlt; [|discriminate].
  injection Hk as <- <-. apply Z.ltb_lt in Hlt.
  destruct (decipher_aes_256_cbc _ _) as [plain|] eqn:Hd; [|discriminate].
  injection H as <- <-. exists dk', plain. auto.
Qed.

Lemma decryptConfidentialData_run blob k v t w dk plain :
  keyCache w !! k = Some dk -> (clock w < expiresAt dk)%Z ->
  decipher_aes_256_cbc (plaintextKey dk) (hex_decode blob) = Some plain ->
  decryptConfidentialData blob k v t w = (Return (Buffer_toString plain), w).
Proof.
  intros Hk Hlt Hd. unfold decryptConfidentialData.
  rewrite (bind_run _ _ _ _ _ (getOrDecryptDataKey_hit _ _ _ Hk Hlt)).
  now rewrite Hd.
Qed.

(** [decrypt] returns exactly when the classification is one of the four,
    the matching strategy returns a text, and the text parses. *)
Lemma decrypt_Return e w value w' :
  decrypt e w = (Return value, w') ->
  exists T text,
    tier_of (classification e) = Some T /\
    match T with
    | PUBLIC => decryptPublicData (encryptedBlob e)
    | INTERNAL => decryptInternalData (encryptedBlob e) (dataKeyId e)
    | CONFIDENTIAL =>
        decryptConfidentialData (encryptedBlob e) (dataKeyId e) (iv e) (authTag e)
    | RESTRICTED =>
        decryptRestrictedData (encryptedBlob e) (dataKeyId e) (iv e) (authTag e)
    end w = (Return text, w') /\
    JSON_parse text = Some value.
Proof.
  intros H. apply try_catch_rethrow_Return in H.
  apply bind_Return in H as (text & w0 & Hs & H).
  destruct (JSON_parse text) as [v|] eqn:Hp; [|discriminate].
  injection H as <- <-.
  destruct (tier_of (classification e)) as [T|]; [|discriminate].
  exists T, text. repeat split; [|assumption]. now destruct T.
Qed.

Lemma decrypt_run e w T text w' value :
  tier_of (classification e) = Some T ->
  match T with
  | PUBLIC => decryptPublicData (encryptedBlob e)
  | INTERNAL => decryptInternalData (encryptedBlob e) (dataKeyId e)
  | CONFIDENTIAL =>
      decryptConfidentialData (encryptedBlob e) (dataKeyId e) (iv e) (authTag e)
  | RESTRICTED =>
      decryptRestrictedData (encryptedBlob e) (dataKeyId e) (iv e) (authTag e)
  end w = (Return text, w') ->
  JSON_parse text = Some value ->
  decrypt e w = (Return value, w').
Proof.
  intros HT Hs Hp. unfold decrypt. apply try_catch_run.
  rewrite HT. destruct T; rewrite (bind_run _ _ _ _ _ Hs), Hp; reflexivity.
Qed.

End DecryptFacts.

(** ** Round trips, tier by tier *)

Section RoundTrips.

Context {pf : Platform}.
Variable this : AWSKMSService.

(** PUBLIC: [encrypt] returns, touches nothing, and [decrypt] gives the
    payload back in any world. *)
Lemma roundtrip_public P text w :
  serializable P text ->
  exists e,
    encrypt this P (tier_value PUBLIC) w = (Return e, w) /\
    forall w2, decrypt e w2 = (Return P, w2).
Proof.
  intros [Hs Hp]. eexists. split.
  - unfold encrypt. apply try_catch_run. unfold bind, lift, Date_now.
    rewrite Hs. reflexivity.
  - intros w2. apply (decrypt_run _ _ PUBLIC text); [reflexivity | | exact Hp].
    cbn [encryptedBlob]. unfold decryptPublicData, ret.
    now rewrite base64_decode_encode, Buffer_toString_from.
Qed.

(** INTERNAL: with a faithful KMS, in a world whose configuration object
    is what it was at encryption. *)
Lemma roundtrip_internal P text w e w1 w2 :
  serializable P text -> kms_faithful ->
  encrypt this P (tier_value INTERNAL) w = (Return e, w1) ->
  configContext w2 = configContext w ->
  decrypt e w2 = (Return P, set_kmsRequests (S (kmsRequests w2)) w2).
Proof.
  intros [Hs Hp] Hkms H Hctx.
  apply encrypt_Return in H as (s & T & Hs' & HT & H).
  rewrite Hs in Hs'. injection Hs' as <-.
  rewrite tier_of_value in HT. injection HT as <-.
  apply encryptInternalData_Return in H as (s & blob & [= <-] & Hblob & _ & ->).
  apply (decrypt_run _ _ INTERNAL text); [reflexivity | | exact Hp].
  cbn [encryptedBlob dataKeyId]. unfold decryptInternalData, bind,
    ENCRYPTION_CONFIG_encryptionContext, kms_request, defined, ret.
  rewrite base64_decode_encode, Hctx.
  rewrite (Hkms _ (kmsRequests w2) _ _ _ _ Hblob).
  now rewrite Buffer_toString_from.
Qed.

(** What an envelope of the CONFIDENTIAL strategy is, and where its key is. *)
Lemma encryptConfidentialData_key data ts w e w1 :
  encryptConfidentialData this data ts w = (Return e, w1) ->
  exists s dek,
    data = Some s /\
    keyId dek = dataKeyId e /\
    keyCache w1 !! dataKeyId e = Some dek /\
    expiresAt dek = (clock w + cacheTimeout this)%Z /\
    encryptedBlob e = hex_encode (cipher_aes_256_cbc (plaintextKey dek) (Buffer_from s)) /\
    classification e = tier_value CONFIDENTIAL.
Proof.
  intros H. apply encryptConfidentialData_Return in H as (s & dek & w0 & -> & Hk & -> & ->).
  apply generateDataKey_Return in Hk as (pt & cb & _ & Hdek & ->).
  exists s, dek. cbn [dataKeyId encryptedBlob classification].
  repeat split.
  - unfold set_drawn, after_issue. cbn [keyCache]. apply lookup_insert_eq.
  - now rewrite Hdek.
Qed.

(** CONFIDENTIAL: with a faithful cipher, while the key is in the cache and
    has not expired. *)
Lemma roundtrip_confidential P text w e w1 w2 :
  serializable P text -> cipher_faithful ->
  encrypt this P (tier_value CONFIDENTIAL) w = (Return e, w1) ->
  keyCache w2 !! dataKeyId e = keyCache w1 !! dataKeyId e ->
  (clock w2 < clock w + cacheTimeout this)%Z ->
  decrypt e w2 = (Return P, w2).
Proof.
  intros [Hs Hp] Hcipher H Hcache Hclock.
  apply encrypt_Return in H as (s & T & Hs' & HT & H).
  rewrite Hs in Hs'. injection Hs' as <-.
  rewrite tier_of_value in HT. injection HT as <-.
  apply encryptConfidentialData_key in H
    as (s & dek & [= <-] & _ & Hk & Hexp & Hblob & Hcl).
  apply (decrypt_run _ _ CONFIDENTIAL text); [now rewrite Hcl | | exact Hp].
  rewrite <- (Buffer_toString_from text).
  apply (decryptConfidentialData_run _ _ _ _ _ dek).
  - now rewrite Hcache.
  - now rewrite Hexp.
  - now rewrite Hblob, hex_decode_encode.
Qed.

(** C1, at RESTRICTED: the envelope is labelled CONFIDENTIAL, so [decrypt]
    takes the CONFIDENTIAL path, deciphers the token, never detokenizes
    it, and hands the token to [JSON.parse], which rejects it: decrypting
    what [encrypt] returned throws instead of returning the payload. *)
Theorem restricted_roundtrip_fails P w e w1 w2 :
  cipher_faithful -> parser_rejects_tokens ->
  encrypt this P (tier_value RESTRICTED) w = (Return e, w1) ->
  keyCache w2 !! dataKeyId e = keyCache w1 !! dataKeyId e ->
  exists w3, decrypt e w2 = (Throw (Error "Failed to decrypt data"), w3).
Proof.
  intros Hcipher Hreject H Hcache.
  apply encrypt_Return in H as (s & T & _ & HT & H).
  rewrite tier_of_value in HT. injection HT as <-.
  apply encryptRestrictedData_Return in H as (s' & -> & H).
  remember (uuid_format (map (entropy w) (seq (drawn w) 16)) +:+ ":"
            +:+ base64_encode (Buffer_from s')) as rest eqn:Hrest.
  apply encryptConfidentialData_key in H
    as (tok & dek & Htok & _ & Hk & _ & Hblob & Hcl).
  injection Htok as Htok.
  destruct (try_catch_rethrow_cases
              (A := Payload)
              (let encryptedBlob := encryptedBlob e in
               let dataKeyId := dataKeyId e in
               let classification := classification e in
               let iv := iv e in
               let authTag := authTag e in
               decryptedData <-
                 match tier_of classification with
                 | Some PUBLIC => decryptPublicData encryptedBlob
                 | Some INTERNAL => decryptInternalData encryptedBlob dataKeyId
                 | Some CONFIDENTIAL =>
                     decryptConfidentialData encryptedBlob dataKeyId iv authTag
                 | Some RESTRICTED =>
                     decryptRestrictedData encryptedBlob dataKeyId iv authTag
                 | None =>
                     throw (Error ("Unsupported data classification: " +:+ classification))
                 end ;;
               match JSON_parse decryptedData with
               | Some value => ret value
               | None => throw (SyntaxError "Unexpected token in JSON")
               end)
              "Decryption error:" (Error "Failed to decrypt data") w2)
    as [(v & w3 & Hret) | (w3 & Hthrow)]; [exfalso | exists w3; exact Hthrow].
  change (decrypt e w2 = (Return v, w3)) in Hret.
  apply decrypt_Return in Hret as (T & text & HT & Hrun & Hparse).
  rewrite Hcl in HT. injection HT as <-.
  apply decryptConfidentialData_Return in Hrun as (dk & plain & Hdk & _ & Hd & -> & _).
  rewrite Hcache, Hk in Hdk. injection Hdk as <-.
  rewrite Hblob, hex_decode_encode, Hcipher in Hd. injection Hd as Hd.
  rewrite <- Hd, Buffer_toString_from, <- Htok in Hparse.
  change ("TOKEN:" +:+ uuid_format (map (entropy w) (seq (drawn w) 16)) +:+ ":"
          +:+ base64_encode (Buffer_from s'))
    with ("TOKEN:" +:+ (uuid_format (map (entropy w) (seq (drawn w) 16)) +:+ ":"
          +:+ base64_encode (Buffer_from s'))) in Htok.
  now rewrite Hreject in Hparse.
Qed.

(** The blob itself is sound: relabelled "restricted", the same envelope
    goes through [decryptRestrictedData] and decrypts to the payload (a
    JSON text is never empty). *)
Lemma restricted_roundtrip_relabelled P text w e w1 w2 :
  serializable P text -> text <> EmptyString -> cipher_faithful ->
  encrypt this P (tier_value RESTRICTED) w = (Return e, w1) ->
  keyCache w2 !! dataKeyId e = keyCache w1 !! dataKeyId e ->
  (clock w2 < clock w + cacheTimeout this)%Z ->
  decrypt (with_classification (tier_value RESTRICTED) e) w2 = (Return P, w2).
Proof.
  intros [Hs Hp] Hne Hcipher H Hcache Hclock.
  apply encrypt_Return in H as (s & T & Hs' & HT & H).
  rewrite Hs in Hs'. injection Hs' as <-.
  rewrite tier_of_value in HT. injection HT as <-.
  apply encryptRestrictedData_Return in H as (s' & Hs' & H).
  injection Hs' as <-.
  remember (uuid_format (map (entropy w) (seq (drawn w) 16))) as token eqn:Htoken.
  apply encryptConfidentialData_key in H
    as (tok & dek & Htok & _ & Hk & Hexp & Hblob & Hcl).
  injection Htok as <-.
  apply (decrypt_run _ _ RESTRICTED text); [reflexivity | | exact Hp].
  cbn [with_classification encryptedBlob dataKeyId iv authTag].
  unfold decryptRestrictedData.
  erewrite bind_run; cycle 1.
  { apply (decryptConfidentialData_run _ _ _ _ _ dek).
    - now rewrite Hcache.
    - cbn [clock set_drawn] in *. now rewrite Hexp.
    - now rewrite Hblob, hex_decode_encode. }
  rewrite Buffer_toString_from.
  rewrite detokenizeData_token by (subst token; apply no_colon_uuid_format).
  destruct (Buffer_from text) eqn:E.
  - now apply Buffer_from_empty in E.
  - rewrite <- E, Buffer_toString_from. reflexivity.
Qed.

End RoundTrips.

(** ** The encryption context at decryption *)

Section ContextFacts.

Context {pf : Platform}.
Variable this : AWSKMSService.

(** C4, amended: [decrypt] never reads the envelope's [encryptionContext].
    Replacing the field of an INTERNAL envelope by any other context
    changes nothing: the context sent to KMS is the configuration
    object's, and with a faithful KMS and that object unchanged the
    envelope still decrypts to the payload. *)
Theorem decrypt_ignores_envelope_context P text w e w1 (r : ContextRef) w2 :
  encrypt this P (tier_value INTERNAL) w = (Return e, w1) ->
  decrypt (with_encryptionContext r e) w2 = decrypt e w2
  /\ (serializable P text -> kms_faithful -> configContext w2 = configContext w ->
      outcome (decrypt (with_encryptionContext r e)) w2 = Return P).
Proof.
  intros H.
  assert (Hsame : decrypt (with_encryptionContext r e) w2 = decrypt e w2)
    by now rewrite (decrypt_reads (with_encryptionContext r e) e).
  split; [exact Hsame|].
  intros Hs Hkms Hctx. unfold outcome. rewrite Hsame.
  now rewrite (roundtrip_internal this P text w e w1 w2 Hs Hkms H Hctx).
Qed.

(** When KMS does refuse the request (the configuration object itself was
    changed, the blob was damaged, the network failed), the caller gets
    the error every failure of [decrypt] ends in; the refusal goes to the
    console. *)
Lemma decrypt_internal_rejected e w code :
  classification e = tier_value INTERNAL ->
  kms_decrypt (kmsRequests w) (base64_decode (encryptedBlob e)) (configContext w)
  = Rejected code ->
  decrypt e w
  = (Throw (Error "Failed to decrypt data"),
     set_console (console_error "Decryption error:" (RemoteError code) :: console w)
       (set_kmsRequests (S (kmsRequests w)) w)).
Proof.
  intros Hc Hr. unfold decrypt.
  rewrite (try_catch_rethrow _ _ (RemoteError code) _ w
             (set_kmsRequests (S (kmsRequests w)) w)); [reflexivity|].
  apply bind_throw. rewrite Hc. cbn [tier_of tier_value String.eqb Ascii.eqb Bool.eqb].
  unfold decryptInternalData, bind, ENCRYPTION_CONFIG_encryptionContext, kms_request.
  now rewrite Hr.
Qed.

End ContextFacts.

(** ** The life of a data key *)

Section CacheFacts.

Context {pf : Platform}.
Variable this : AWSKMSService.

(** C6: a key issued in world [w] is cached with [expiresAt] set to the
    clock of [w] plus the time-to-live.  In any world whose clock is past
    that, a lookup by its identifier never returns the key, whatever the
    cache holds; and it throws, whether the entry is still in the map or
    already deleted. *)
Theorem expired_key_is_a_miss w dek w1 w2 :
  generateDataKey this w = (Return dek, w1) ->
  (clock w + cacheTimeout this < clock w2)%Z ->
  keyCache w1 !! keyId dek = Some dek /\
  expiresAt dek = (clock w + cacheTimeout this)%Z /\
  (forall w3, getOrDecryptDataKey (keyId dek) w2 <> (Return dek, w3)) /\
  (keyCache w2 !! keyId dek = Some dek \/ keyCache w2 !! keyId dek = None ->
   getOrDecryptDataKey (keyId dek) w2
   = (Throw (Error "Data key decryption not implemented"), w2)).
Proof.
  intros H Hlate.
  apply generateDataKey_Return in H as (pt & cb & _ & Hdek & ->).
  assert (Hexp : expiresAt dek = (clock w + cacheTimeout this)%Z) by now rewrite Hdek.
  split; [|split; [exact Hexp|split]].
  - unfold after_issue. cbn [keyCache]. apply lookup_insert_eq.
  - intros w3. rewrite getOrDecryptDataKey_run.
    destruct (keyCache w2 !! keyId dek) as [k|]; [|discriminate].
    destruct (clock w2 <? expiresAt k)%Z eqn:Hlt; [|discriminate].
    intros [= -> _]. apply Z.ltb_lt in Hlt. lia.
  - intros Hcache. apply getOrDecryptDataKey_miss. destruct Hcache as [Hin | Hout].
    + right. exists dek. split; [exact Hin | lia].
    + now left.
Qed.

(** The same at the instant of expiry: the comparison is strict. *)
Lemma key_at_expiry_is_a_miss w dek w1 w2 :
  generateDataKey this w = (Return dek, w1) ->
  keyCache w2 !! keyId dek = Some dek ->
  clock w2 = (clock w + cacheTimeout this)%Z ->
  getOrDecryptDataKey (keyId dek) w2
  = (Throw (Error "Data key decryption not implemented"), w2).
Proof.
  intros H Hcache Hnow.
  apply generateDataKey_Return in H as (pt & cb & _ & Hdek & ->).
  apply getOrDecryptDataKey_miss. right. exists dek. split; [exact Hcache|].
  rewrite Hdek. cbn [expiresAt issued]. lia.
Qed.

(** Before expiry, and while the entry is there, the lookup returns the key. *)
Lemma fresh_key_is_a_hit w dek w1 w2 :
  generateDataKey this w = (Return dek, w1) ->
  keyCache w2 !! keyId dek = Some dek ->
  (clock w2 < clock w + cacheTimeout this)%Z ->
  getOrDecryptDataKey (keyId dek) w2 = (Return dek, w2).
Proof.
  intros H Hcache Hnow.
  apply generateDataKey_Return in H as (pt & cb & _ & Hdek & ->).
  apply getOrDecryptDataKey_hit; [exact Hcache|].
  rewrite Hdek. cbn [expiresAt issued]. lia.
Qed.

(** The timer set at issue: once it is due and the event loop has run, the
    entry is gone from the map. *)
Lemma foldl_fire_keeps_deleted (due : list (Z * string)) (w : World) (k : string) :
  keyCache w !! k = None -> keyCache (foldl fire w due) !! k = None.
Proof.
  revert w. induction due as [|t due IH]; intros w Hk; [exact Hk|].
  cbn [foldl]. apply IH. unfold fire, set_keyCache. cbn [keyCache].
  destruct (decide (t.2 = k)) as [-> | Hne].
  - apply lookup_delete_eq.
  - now rewrite lookup_delete_ne.
Qed.

Lemma foldl_fire_deletes (due : list (Z * string)) (w : World) (t : Z) (k : string) :
  (t, k) ∈ due -> keyCache (foldl fire w due) !! k = None.
Proof.
  revert w. induction due as [|x due IH]; intros w Hin.
  - now apply not_elem_of_nil in Hin.
  - cbn [foldl]. apply elem_of_cons in Hin as [<- | Hin].
    + apply foldl_fire_keeps_deleted. unfold fire, set_keyCache. cbn [keyCache snd].
      apply lookup_delete_eq.
    + now apply IH.
Qed.

Lemma run_timers_evicts (w : World) (t : Z) (k : string) :
  (t, k) ∈ timers w -> (t <= clock w)%Z -> keyCache (run_timers w) !! k = None.
Proof.
  intros Hin Hdue. unfold run_timers.
  apply (foldl_fire_deletes _ _ t). apply list_elem_of_filter. now split.
Qed.

Lemma issued_key_is_evicted w dek w1 (d : Z) :
  generateDataKey this w = (Return dek, w1) ->
  (cacheTimeout this <= d)%Z ->
  keyCache (elapse d w1) !! keyId dek = None.
Proof.
  intros H Hd.
  apply generateDataKey_Return in H as (pt & cb & _ & Hdek & ->).
  unfold elapse. apply (run_timers_evicts _ (clock w + cacheTimeout this)%Z).
  - unfold tick, set_clock, after_issue. cbn [timers].
    apply elem_of_app. right. now apply list_elem_of_singleton.
  - unfold tick, set_clock, after_issue. cbn [clock]. lia.
Qed.

(** A rotation that KMS accepts empties the cache: every envelope of the
    two block-cipher tiers issued before it can no longer be decrypted. *)
Lemma rotateKeys_clears w w1 :
  rotateKeys this w = (Return tt, w1) -> keyCache w1 = ∅.
Proof.
  intros H. apply try_catch_rethrow_Return in H.
  apply bind_Return in H as ([] & w0 & _ & H).
  apply bind_Return in H as ([] & w0' & Hclear & H).
  injection Hclear as <-. now injection H as <-.
Qed.

Lemma decrypt_after_rotation_fails e w w1 :
  classification e = tier_value CONFIDENTIAL \/ classification e = tier_value RESTRICTED ->
  rotateKeys this w = (Return tt, w1) ->
  exists w2, decrypt e w1 = (Throw (Error "Failed to decrypt data"), w2).
Proof.
  intros Hc H. apply rotateKeys_clears in H.
  destruct (decrypt_without_key_fails_at e w1 Hc) as (w2 & Hd); [|eauto].
  left. rewrite H. apply lookup_empty.
Qed.

End CacheFacts.

(** ** The reference platform is a faithful one *)

Section ReferenceFacts.

Lemma xor_byte_involutive (a b : ascii) :
  Reference.xor_byte (Reference.xor_byte a b) b = a.
Proof.
  apply Ascii.eqb_eq. revert a b.
  assert (H : forallb (fun a => forallb (fun b =>
                Ascii.eqb (Reference.xor_byte (Reference.xor_byte a b) b) a) all_ascii)
                all_ascii = true) by (vm_compute; reflexivity).
  intros a b.
  exact (forall_ascii2
           (fun a b => Ascii.eqb (Reference.xor_byte (Reference.xor_byte a b) b) a) H a b).
Qed.

Lemma xor_byte_comm (a b : ascii) : Reference.xor_byte a b = Reference.xor_byte b a.
Proof. unfold Reference.xor_byte. now rewrite N.lxor_comm. Qed.

Lemma mask_involutive (b : Buffer) : Reference.mask (Reference.mask b) = b.
Proof.
  unfold Reference.mask. induction b as [|a b IH]; [reflexivity|].
  cbn [map]. rewrite IH. f_equal.
  rewrite (xor_byte_comm "090" (Reference.xor_byte "090" a)), (xor_byte_comm "090" a).
  apply xor_byte_involutive.
Qed.

Lemma reference_kms_faithful : @kms_faithful reference_platform.
Proof.
  intros n n' keyId plaintext ctx blob.
  cbn [kms_encrypt kms_decrypt reference_platform].
  unfold Reference.encrypt_request, Reference.decrypt_request.
  destruct (Reference.known_key keyId); [|discriminate].
  intros [= <-]. unfold Reference.unwrap, Reference.wrap.
  rewrite take_app_length, bool_decide_eq_true_2 by reflexivity.
  now rewrite drop_app_length, mask_involutive.
Qed.

Lemma zip_xor_involutive (data stream : Buffer) :
  length data <= length stream ->
  zip_with Reference.xor_byte (zip_with Reference.xor_byte data stream) stream = data.
Proof.
  revert stream. induction data as [|a data IH]; intros [|k stream] Hlen;
    cbn [zip_with length] in *; [reflexivity | reflexivity | lia |].
  rewrite xor_byte_involutive, IH by lia. reflexivity.
Qed.

Lemma length_keystream (password : Buffer) (n : nat) :
  length (Reference.keystream password n) = n.
Proof. unfold Reference.keystream. now rewrite length_map, length_seq. Qed.

Lemma length_pkcs7_pad (data : Buffer) :
  length (Reference.pkcs7_pad data) = (length data + (16 - length data mod 16))%nat.
Proof. unfold Reference.pkcs7_pad. now rewrite length_app, length_replicate. Qed.

Lemma pkcs7_unpad_pad (data : Buffer) :
  Reference.pkcs7_unpad (Reference.pkcs7_pad data) = Some data.
Proof.
  unfold Reference.pkcs7_unpad. rewrite length_pkcs7_pad.
  unfold Reference.pkcs7_pad.
  pose proof (Nat.mod_upper_bound (length data) 16 ltac:(lia)) as Hr.
  set (p := (16 - length data mod 16)%nat) in *.
  assert (Hp : (1 <= p <= 16)%nat) by (unfold p; lia).
  rewrite lookup_app_r by lia.
  rewrite lookup_replicate_2 by lia.
  rewrite nat_ascii_embedding by lia.
  replace (length data + p - p)%nat with (length data) by lia.
  rewrite drop_app_length, take_app_length.
  rewrite bool_decide_eq_true_2; [reflexivity|].
  repeat split; lia.
Qed.

Lemma reference_cipher_faithful : @cipher_faithful reference_platform.
Proof.
  intros password data. cbn [decipher_aes_256_cbc cipher_aes_256_cbc reference_platform].
  unfold Reference.decipher, Reference.cipher.
  set (padded := Reference.pkcs7_pad data).
  assert (Hlen : length (zip_with Reference.xor_byte padded
                           (Reference.keystream password (length padded)))
                 = length padded)
    by (rewrite length_zip_with, length_keystream; lia).
  rewrite Hlen.
  rewrite zip_xor_involutive by (rewrite length_keystream; lia).
  rewrite bool_decide_eq_true_2.
  - apply pkcs7_unpad_pad.
  - split.
    + intros Hnil. apply (f_equal length) in Hnil. rewrite Hlen in Hnil.
      unfold padded in Hnil. rewrite length_pkcs7_pad in Hnil. cbn [length] in Hnil.
      pose proof (Nat.mod_upper_bound (length data) 16 ltac:(lia)). lia.
    + unfold padded. rewrite length_pkcs7_pad.
      pose proof (Nat.mod_upper_bound (length data) 16 ltac:(lia)) as Hr.
      pose proof (Nat.div_mod_eq (length data) 16) as Hq.
      replace (length data + (16 - length data mod 16))%nat
        with ((S (length data / 16)) * 16)%nat by lia.
      apply Nat.Div0.mod_mul.
Qed.

Lemma reference_parser_rejects_tokens : @parser_rejects_tokens reference_platform.
Proof.
  intros rest. cbn [JSON_parse reference_platform]. unfold Reference.parse.
  destruct (2 * String.length ("TOKEN:" +:+ rest) + 2)%nat as [|fuel] eqn:E; [lia|].
  reflexivity.
Qed.

End ReferenceFacts.

(** ** The service on the reference platform *)

Section Scenarios.

Lemma transaction_serializable :
  serializable (pf := reference_platform) transaction (Reference.stringify transaction).
Proof. split; vm_compute; reflexivity. Qed.

Lemma restricted_roundtrip_fails_witness :
  exists e w1 w3,
    encrypt kmsService transaction (tier_value RESTRICTED) start = (Return e, w1) /\
    decrypt e w1 = (Throw (Error "Failed to decrypt data"), w3).
Proof.
  destruct (encrypt (pf := reference_platform) kmsService transaction (tier_value RESTRICTED) start)
    as [[e|err] w1] eqn:E.
  - destruct (restricted_roundtrip_fails (pf := reference_platform) kmsService transaction start e w1 w1
                reference_cipher_faithful reference_parser_rejects_tokens E eq_refl)
      as [w3 H].
    exists e, w1, w3. split; [reflexivity | exact H].
  - vm_compute in E. discriminate E.
Defined.

Lemma restricted_envelope_is_labelled_confidential_witness :
  exists e w1,
    encrypt kmsService transaction (tier_value RESTRICTED) start = (Return e, w1) /\
    classification e = "confidential" /\ classification e <> tier_value RESTRICTED.
Proof.
  destruct (encrypt (pf := reference_platform) kmsService transaction (tier_value RESTRICTED) start)
    as [[e|err] w1] eqn:E.
  - exists e, w1. split; [reflexivity|].
    exact (restricted_envelope_is_labelled_confidential (pf := reference_platform)
             kmsService transaction start e w1 E).
  - vm_compute in E. discriminate E.
Defined.

(** C3, as stated: the tag of an INTERNAL envelope is not "root-kms". *)
Lemma internal_algorithm_is_not_root_kms :
  exists e w1,
    encrypt kmsService transaction (tier_value INTERNAL) start = (Return e, w1) /\
    algorithm e = "aws-kms" /\ algorithm e <> "root-kms".
Proof.
  eexists _, _. split; [vm_compute; reflexivity|].
  split; [reflexivity | discriminate].
Qed.

Lemma encrypt_algorithm_witness :
  exists e w1,
    encrypt kmsService transaction (tier_value INTERNAL) start = (Return e, w1) /\
    algorithm e = "aws-kms".
Proof.
  destruct (encrypt (pf := reference_platform) kmsService transaction (tier_value INTERNAL) start)
    as [[e|err] w1] eqn:E.
  - exists e, w1. split; [reflexivity|].
    exact (encrypt_algorithm (pf := reference_platform) kmsService transaction INTERNAL start e w1 E).
  - vm_compute in E. discriminate E.
Defined.

(** C4, as stated: an INTERNAL envelope whose [encryptionContext] was
    replaced by a different map decrypts to the payload; nothing fails. *)
Lemma replaced_context_still_decrypts :
  exists e w1,
    encrypt kmsService transaction (tier_value INTERNAL) start = (Return e, w1) /\
    deref w1 (OwnContext tampered_context) <> deref w1 (encryptionContext e) /\
    outcome (decrypt (with_encryptionContext (OwnContext tampered_context) e)) w1
    = Return transaction.
Proof.
  eexists _, _. split; [vm_compute; reflexivity|]. split.
  - intros H. apply (f_equal (fun m => m !! "application")) in H.
    vm_compute in H. discriminate H.
  - vm_compute. reflexivity.
Qed.

Lemma decrypt_ignores_envelope_context_witness :
  exists e w1,
    encrypt kmsService transaction (tier_value INTERNAL) start = (Return e, w1) /\
    decrypt (with_encryptionContext (OwnContext tampered_context) e) w1 = decrypt e w1 /\
    outcome (decrypt (with_encryptionContext (OwnContext tampered_context) e)) w1
    = Return transaction.
Proof.
  destruct (encrypt (pf := reference_platform) kmsService transaction (tier_value INTERNAL) start)
    as [[e|err] w1] eqn:E.
  - exists e, w1. split; [reflexivity|].
    destruct (decrypt_ignores_envelope_context (pf := reference_platform)
                kmsService transaction (Reference.stringify transaction) start e w1
                (OwnContext tampered_context) w1 E) as [Hsame Hback].
    split; [exact Hsame|]. apply Hback.
    + exact transaction_serializable.
    + exact reference_kms_faithful.
    + pose proof E as E'. apply encrypt_Return in E' as (s & T & _ & HT & E').
      injection HT as <-.
      now apply encryptInternalData_Return in E' as (? & ? & _ & _ & -> & _).
  - vm_compute in E. discriminate E.
Defined.

(** The configuration object is shared: changing it in place, as a holder
    of any envelope can, makes KMS refuse every earlier INTERNAL
    envelope, and the caller sees the generic error. *)
Example configuration_changed_in_place :
  exists e w1,
    encrypt kmsService transaction (tier_value INTERNAL) start = (Return e, w1) /\
    encryptionContext e = SharedConfigContext /\
    decrypt e (set_configContext tampered_context w1)
    = (Throw (Error "Failed to decrypt data"),
       set_console [console_error "Decryption error:"
                      (RemoteError "InvalidCiphertextException")]
         (set_kmsRequests 2 (set_configContext tampered_context w1))).
Proof.
  eexists _, _. split; [vm_compute; reflexivity|].
  split; [reflexivity|]. apply decrypt_internal_rejected; vm_compute; reflexivity.
Qed.

Lemma expired_key_is_a_miss_witness :
  exists dek w1,
    generateDataKey kmsService start = (Return dek, w1) /\
    keyCache (tick 900001 w1) !! keyId dek = Some dek /\
    getOrDecryptDataKey (keyId dek) (tick 900001 w1)
    = (Throw (Error "Data key decryption not implemented"), tick 900001 w1).
Proof.
  destruct (generateDataKey (pf := reference_platform) kmsService start) as [[dek|err] w1] eqn:E.
  - exists dek, w1. split; [reflexivity|].
    destruct (generateDataKey_world (pf := reference_platform) kmsService start dek w1 E) as (Hin & Hclock & _).
    split; [exact Hin|].
    refine (proj2 (proj2 (proj2 (expired_key_is_a_miss (pf := reference_platform)
                                   kmsService start dek w1 (tick 900001 w1) E _)))
              (or_introl Hin)).
    unfold tick, set_clock. cbn [clock]. rewrite Hclock. vm_compute. reflexivity.
  - vm_compute in E. discriminate E.
Defined.

(** Fifteen minutes later, with the event loop run, the entry is gone. *)
Example key_evicted_after_ttl :
  exists dek w1,
    generateDataKey kmsService start = (Return dek, w1) /\
    keyCache w1 !! keyId dek = Some dek /\
    keyCache (elapse 900000 w1) = ∅ /\ timers (elapse 900000 w1) = [].
Proof.
  eexists _, _. split; [vm_compute; reflexivity|].
  split; [vm_compute; reflexivity|]. split; vm_compute; reflexivity.
Qed.

Lemma unsupported_classification_is_rethrown_witness :
  exists w',
    encrypt kmsService transaction "secret" start
    = (Throw (Error "Failed to encrypt data"), w') /\
    console w' = [console_error "Encryption error:"
                    (Error "Unsupported data classification: secret")].
Proof.
  destruct (unsupported_classification_is_rethrown (pf := reference_platform)
              kmsService transaction "secret" start
              eq_refl) as (w' & H & _ & Hlog).
  exists w'. split; [exact H|]. exact (Hlog _ eq_refl).
Defined.

Lemma decrypt_without_key_fails_witness :
  exists w',
    decrypt orphan_envelope start = (Throw (Error "Failed to decrypt data"), w') /\
    keyCache w' = keyCache start.
Proof.
  destruct (decrypt_without_key_fails (pf := reference_platform) orphan_envelope start
              (or_introl eq_refl) (or_introl eq_refl)) as (w' & H & _ & Hcache & _).
  exists w'. split; [exact H | exact Hcache].
Defined.

Lemma decrypt_ignores_authTag_witness :
  exists e w1,
    encrypt kmsService transaction (tier_value CONFIDENTIAL) start = (Return e, w1) /\
    decrypt (with_authTag (Some "forged") e) w1 = decrypt (with_authTag None e) w1 /\
    authTag e = Some "sha256-hmac".
Proof.
  destruct (encrypt (pf := reference_platform) kmsService transaction (tier_value CONFIDENTIAL) start)
    as [[e|err] w1] eqn:E.
  - exists e, w1. split; [reflexivity|].
    destruct (decrypt_ignores_authTag (pf := reference_platform)
                e (Some "forged") None w1
                (or_introl (encrypt_classification (pf := reference_platform) kmsService transaction CONFIDENTIAL
                              start e w1 E))) as [Hsame Htag].
    split; [exact Hsame | exact (Htag _ _ _ _ _ E)].
  - vm_compute in E. discriminate E.
Defined.

(** [new AWSKMSService()] with no argument and no environment variable. *)
Example exported_instance :
  outcome (new_AWSKMSService None None) start
  = Return kmsService.
Proof. reflexivity. Qed.

(** The scenario of the specification, at the four tiers. *)
Example transaction_roundtrips :
  outcome (e <- encrypt kmsService transaction (tier_value PUBLIC) ;; decrypt e) start
  = Return transaction /\
  outcome (e <- encrypt kmsService transaction (tier_value INTERNAL) ;; decrypt e) start
  = Return transaction /\
  outcome (e <- encrypt kmsService transaction (tier_value CONFIDENTIAL) ;; decrypt e) start
  = Return transaction /\
  outcome (e <- encrypt kmsService transaction (tier_value RESTRICTED) ;; decrypt e) start
  = Throw (Error "Failed to decrypt data").
Proof. repeat split; vm_compute; reflexivity. Qed.

End Scenarios.

(** ** What a method may change: the rules *)

#[local] Instance undisturbed_preorder : PreOrder undisturbed.
Proof.
  split.
  - intros w. repeat split.
  - intros w1 w2 w3 (H1 & H2 & H3 & H4 & H5 & H6) (K1 & K2 & K3 & K4 & K5 & K6).
    repeat split; congruence.
Qed.

#[local] Instance same_cache_preorder : PreOrder same_cache.
Proof.
  split.
  - intros w. split; reflexivity.
  - intros w1 w2 w3 [H1 H2] [K1 K2]. split; congruence.
Qed.

#[local] Instance keeps_preorder (I : World -> Prop) : PreOrder (keeps I).
Proof. split; [intros w H; exact H | intros w1 w2 w3 H K Hw; exact (K (H Hw))]. Qed.

Section StepFacts.

Lemma undisturbed_same_cache w w' : undisturbed w w' -> same_cache w w'.
Proof. intros (H1 & H2 & _). now split. Qed.

Lemma same_cache_keeps_sound w w' : same_cache w w' -> keeps cache_sound w w'.
Proof. intros [Hc Ht] Hs k dk. rewrite Hc, Ht. apply Hs. Qed.

Variable R : World -> World -> Prop.
Context {HR : PreOrder R}.

Lemma steps_ret {A} (a : A) : steps R (ret a).
Proof. intros w o w' [= _ <-]. reflexivity. Qed.

Lemma steps_throw {A} (e : Exn) : steps R (@throw A e).
Proof. intros w o w' [= _ <-]. reflexivity. Qed.

Lemma steps_lift {A} (x : Outcome A) : steps R (lift x).
Proof. intros w o w' [= _ <-]. reflexivity. Qed.

Lemma steps_bind {A B} (m : JS A) (k : A -> JS B) :
  steps R m -> (forall a, steps R (k a)) -> steps R (bind m k).
Proof.
  intros Hm Hk w o w'. unfold bind.
  destruct (m w) as [[a|e] w0] eqn:E; intros H.
  - transitivity w0; [exact (Hm _ _ _ E) | exact (Hk a _ _ _ H)].
  - injection H as _ <-. exact (Hm _ _ _ E).
Qed.

Lemma steps_try_catch {A} (m : JS A) (h : Exn -> JS A) :
  steps R m -> (forall e, steps R (h e)) -> steps R (try_catch m h).
Proof.
  intros Hm Hh w o w'. unfold try_catch.
  destruct (m w) as [[a|e] w0] eqn:E; intros H.
  - injection H as _ <-. exact (Hm _ _ _ E).
  - transitivity w0; [exact (Hm _ _ _ E) | exact (Hh e _ _ _ H)].
Qed.

Lemma steps_defined {A} (x : option A) : steps R (defined x).
Proof. destruct x; [apply steps_ret | apply steps_throw]. Qed.

Lemma steps_Buffer_from_any (data : option string) : steps R (Buffer_from_any data).
Proof. destruct data; [apply steps_ret | apply steps_throw]. Qed.

Lemma steps_sm_request {A} (reply : Reply A) : steps R (sm_request reply).
Proof. destruct reply; [apply steps_ret | apply steps_throw]. Qed.

Lemma steps_detokenizeData (s : string) : steps R (detokenizeData s).
Proof.
  unfold detokenizeData. destruct (startsWith s "TOKEN:"); [|apply steps_ret].
  destruct (split ":" s !! 2%nat); [|apply steps_ret].
  destruct (_ && _); apply steps_ret.
Qed.

End StepFacts.

Lemma steps_weaken (R R' : World -> World -> Prop) {A} (m : JS A) :
  (forall w w', R w w' -> R' w w') -> steps R m -> steps R' m.
Proof. intros HRR Hm w o w' H. exact (HRR _ _ (Hm _ _ _ H)). Qed.

(** The primitives that leave everything but the console and the request
    count alone. *)

Section QuietPrimitives.

Lemma undisturbed_Date_now : steps undisturbed Date_now.
Proof. intros w o w' [= _ <-]. repeat split. Qed.

Lemma undisturbed_config : steps undisturbed ENCRYPTION_CONFIG_encryptionContext.
Proof. intros w o w' [= _ <-]. repeat split. Qed.

Lemma undisturbed_console_error label e : steps undisturbed (console_error_ label e).
Proof. intros w o w' [= _ <-]. repeat split. Qed.

Lemma undisturbed_console_log line : steps undisturbed (console_log_ line).
Proof. intros w o w' [= _ <-]. repeat split. Qed.

Lemma undisturbed_kms_request {A} (op : nat -> Reply A) : steps undisturbed (kms_request op).
Proof.
  intros w o w'. unfold kms_request.
  destruct (op (kmsRequests w)); intros [= _ <-]; repeat split.
Qed.

Lemma undisturbed_rethrow {A} label e' :
  forall e, steps undisturbed (A := A) (console_error_ label e ;;; throw e').
Proof.
  intros e. apply steps_bind; [exact _ | apply undisturbed_console_error |].
  intros _. apply steps_throw. exact _.
Qed.

Lemma undisturbed_getOrDecryptDataKey k : steps undisturbed (getOrDecryptDataKey k).
Proof.
  intros w o w'. rewrite getOrDecryptDataKey_run. intros [= _ <-]. repeat split.
Qed.

End QuietPrimitives.

(** ** Decryption reads, and never writes *)

Section DecryptIsQuiet.

Context {pf : Platform}.

Lemma undisturbed_decryptConfidentialData blob k v t :
  steps undisturbed (decryptConfidentialData blob k v t).
Proof.
  unfold decryptConfidentialData.
  apply steps_bind; [exact _ | apply undisturbed_getOrDecryptDataKey |].
  intros dk. destruct (decipher_aes_256_cbc _ _); [apply steps_ret | apply steps_throw];
    exact _.
Qed.

Lemma undisturbed_decrypt (e : EncryptedData) : steps undisturbed (decrypt e).
Proof.
  unfold decrypt. apply steps_try_catch; [exact _ | | apply undisturbed_rethrow].
  apply steps_bind; [exact _ | |].
  - destruct (tier_of (classification e)) as [[]|].
    + apply steps_ret. exact _.
    + unfold decryptInternalData.
      apply steps_bind; [exact _ | apply undisturbed_config |]. intros ctx.
      apply steps_bind; [exact _ | apply undisturbed_kms_request |]. intros result.
      apply steps_bind; [exact _ | apply steps_defined; exact _ |]. intros pt.
      apply steps_ret. exact _.
    + apply undisturbed_decryptConfidentialData.
    + unfold decryptRestrictedData.
      apply steps_bind; [exact _ | apply undisturbed_decryptConfidentialData |].
      intros s. apply steps_detokenizeData. exact _.
    + apply steps_throw. exact _.
  - intros text. destruct (JSON_parse text); [apply steps_ret | apply steps_throw];
      exact _.
Qed.

(** X1: whatever the envelope and whatever the outcome, [decrypt] leaves the
    key cache, the pending timers, the clock, the configuration object and
    the random source as they were; it never issues or evicts a key. *)
Theorem decrypt_changes_nothing (e : EncryptedData) (w : World) :
  undisturbed w (after (decrypt e) w).
Proof.
  unfold after. destruct (decrypt e w) as [o w'] eqn:E.
  exact (undisturbed_decrypt e w o w' E).
Qed.

(** X2: an envelope whose classification is none of the four values makes
    [decrypt] throw the generic error; the error naming the classification
    goes to the console, and no KMS request is sent. *)
Theorem decrypt_unsupported_classification (e : EncryptedData) (w : World) :
  tier_of (classification e) = None ->
  decrypt e w
  = (Throw (Error "Failed to decrypt data"),
     set_console
       (console_error "Decryption error:"
          (Error ("Unsupported data classification: " +:+ classification e))
        :: console w) w).
Proof.
  intros Hc. unfold decrypt.
  rewrite (try_catch_rethrow _ _
             (Error ("Unsupported data classification: " +:+ classification e)) _ w w);
    [reflexivity|].
  apply bind_throw. now rewrite Hc.
Qed.

End DecryptIsQuiet.

Section GenericErrors.

Context {pf : Platform}.
Variable this : AWSKMSService.



(** X4: the constructor never throws: the key identifier falls back to a
    constant that is not empty, so the test for a missing identifier cannot
    fire.  An argument that is the empty string counts as missing, and so
    does an empty environment variable.  The instance starts with an empty
    cache and a time-to-live of fifteen minutes. *)
Theorem constructor_never_throws (cmkId AWS_KMS_KEY_ID : option string) (w : World) :
  exists instance,
    outcome (new_AWSKMSService cmkId AWS_KMS_KEY_ID) w = Return instance /\
    customerMasterKeyId instance <> EmptyString /\
    customerMasterKeyId instance
    = match cmkId, AWS_KMS_KEY_ID with
      | Some k, _ => if String.eqb k EmptyString
                     then match AWS_KMS_KEY_ID with
                          | Some k' => if String.eqb k' EmptyString
                                       then ENDCRYPT_KMS_CONFIG_keyId else k'
                          | None => ENDCRYPT_KMS_CONFIG_keyId
                          end
                     else k
      | None, Some k' => if String.eqb k' EmptyString then ENDCRYPT_KMS_CONFIG_keyId else k'
      | None, None => ENDCRYPT_KMS_CONFIG_keyId
      end /\
    cacheTimeout instance = 900000%Z /\
    keyCache (after (new_AWSKMSService cmkId AWS_KMS_KEY_ID) w) = ∅.
Proof.
  set (k := or_else cmkId (or_else AWS_KMS_KEY_ID ENDCRYPT_KMS_CONFIG_keyId)).
  assert (Hk : String.eqb k EmptyString = false).
  { unfold k, or_else. destruct cmkId as [a|], AWS_KMS_KEY_ID as [b|];
      repeat match goal with
             | |- context [String.eqb ?x EmptyString] =>
                 is_var x; destruct (String.eqb x EmptyString) eqn:?
             end; try assumption; reflexivity. }
  exists (mkAWSKMSService k 900000).
  unfold outcome, after, new_AWSKMSService, bind, keyCache_clear.
  change (15 * 60 * 1000)%Z with 900000%Z. fold k. cbn [customerMasterKeyId].
  rewrite Hk. cbn. repeat split.
  intros Heq. rewrite Heq in Hk. discriminate Hk.
Qed.

End GenericErrors.

(** ** Issuing, expiring and rotating keys *)

Section KeyLifecycle.

Context {pf : Platform}.
Variable this : AWSKMSService.

(** The two ways [generateDataKey] can end. *)
Lemma generateDataKey_cases w o w' :
  generateDataKey this w = (o, w') ->
  (exists Plaintext CiphertextBlob,
     kms_generateDataKey (kmsRequests w) (customerMasterKeyId this)
       ENCRYPTION_CONFIG_keySpec (configContext w)
     = Fulfilled (Some Plaintext, Some CiphertextBlob) /\
     o = Return (issued this w Plaintext CiphertextBlob) /\
     w' = after_issue this w (issued this w Plaintext CiphertextBlob))
  \/ ((forall Plaintext CiphertextBlob,
         kms_generateDataKey (kmsRequests w) (customerMasterKeyId this)
           ENCRYPTION_CONFIG_keySpec (configContext w)
         <> Fulfilled (Some Plaintext, Some CiphertextBlob)) /\
      o = Throw (Error "Failed to generate data encryption key") /\
      undisturbed w w' /\ kmsRequests w' = S (kmsRequests w)).
Proof.
  unfold generateDataKey, try_catch, bind, ENCRYPTION_CONFIG_encryptionContext, kms_request.
  destruct (kms_generateDataKey _ _ _ _) as [[[pt|] [cb|]]|code] eqn:E;
    intros [= <- <-];
    first [ left; exists pt, cb; repeat split; reflexivity
          | right; repeat split; intros ? ?; discriminate ].
Qed.

(** X5: issuing a key is all or nothing.  When [generateDataKey] throws
    (KMS refused, or its reply lacks the plaintext or the wrapped key), the
    cache, the timers and the random source are untouched: no identifier
    was drawn and nothing was registered. *)
Theorem failed_issue_registers_nothing w e w' :
  generateDataKey this w = (Throw e, w') ->
  e = Error "Failed to generate data encryption key" /\
  undisturbed w w' /\
  forall Plaintext CiphertextBlob,
    kms_generateDataKey (kmsRequests w) (customerMasterKeyId this)
      ENCRYPTION_CONFIG_keySpec (configContext w)
    <> Fulfilled (Some Plaintext, Some CiphertextBlob).
Proof.
  intros H. apply generateDataKey_cases in H
    as [(pt & cb & _ & [=] & _) | (Hno & [= <-] & Hu & _)].
  auto.
Qed.


(** X7: a key in the cache is returned by the lookup exactly while the
    clock is before its expiry: at the instant of expiry it is already a
    miss. *)
Theorem lookup_hits_exactly_before_expiry w dek w1 w2 :
  generateDataKey this w = (Return dek, w1) ->
  keyCache w2 !! keyId dek = Some dek ->
  getOrDecryptDataKey (keyId dek) w2 = (Return dek, w2)
  <-> (clock w2 < clock w + cacheTimeout this)%Z.
Proof.
  intros H Hin.
  apply generateDataKey_Return in H as (pt & cb & _ & Hdek & _).
  assert (Hexp : expiresAt dek = (clock w + cacheTimeout this)%Z) by now rewrite Hdek.
  rewrite getOrDecryptDataKey_run, Hin, Hexp.
  destruct (clock w2 <? clock w + cacheTimeout this)%Z eqn:E.
  - apply Z.ltb_lt in E. split; [intros _; exact E | reflexivity].
  - apply Z.ltb_ge in E. split; [discriminate | lia].
Qed.

(** X8: once the time-to-live has passed and the event loop has run, the
    timer set at issue has removed the key from the map. *)
Theorem issued_key_is_gone_after_ttl w dek w1 (d : Z) :
  generateDataKey this w = (Return dek, w1) ->
  (cacheTimeout this <= d)%Z ->
  keyCache (elapse d w1) !! keyId dek = None /\
  unavailable (elapse d w1) (keyId dek).
Proof.
  intros H Hd. pose proof (issued_key_is_evicted this w dek w1 d H Hd) as Hgone.
  split; [exact Hgone | now left].
Qed.

Lemma foldl_fire_clock (due : list (Z * string)) (w : World) :
  clock (foldl fire w due) = clock w /\ timers (foldl fire w due) = timers w.
Proof.
  revert w. induction due as [|t due IH]; intros w; [now split|].
  cbn [foldl]. destruct (IH (fire w t)) as [-> ->]. now split.
Qed.

Lemma foldl_fire_subset (due : list (Z * string)) (w : World) (k : string)
    (dk : DataEncryptionKey) :
  keyCache (foldl fire w due) !! k = Some dk -> keyCache w !! k = Some dk.
Proof.
  revert w. induction due as [|t due IH]; intros w H; [exact H|].
  cbn [foldl] in H. apply IH in H. unfold fire, set_keyCache in H. cbn [keyCache] in H.
  destruct (decide (t.2 = k)) as [<- | Hne].
  - now rewrite lookup_delete_eq in H.
  - now rewrite lookup_delete_ne in H.
Qed.

Lemma foldl_fire_other (due : list (Z * string)) (w : World) (k : string) :
  (forall t, (t, k) ∉ due) ->
  keyCache (foldl fire w due) !! k = keyCache w !! k.
Proof.
  revert w. induction due as [|[t k'] due IH]; intros w Hno; [reflexivity|].
  cbn [foldl]. rewrite IH.
  - unfold fire, set_keyCache. cbn [keyCache snd]. apply lookup_delete_ne.
    intros ->. apply (Hno t). apply elem_of_cons. now left.
  - intros t' Hin. apply (Hno t'). apply elem_of_cons. now right.
Qed.

Lemma run_timers_sound (w : World) :
  cache_sound w ->
  cache_sound (run_timers w) /\
  forall k dk, keyCache (run_timers w) !! k = Some dk -> (clock w < expiresAt dk)%Z.
Proof.
  intros Hs.
  assert (Hlive : forall k dk, keyCache (run_timers w) !! k = Some dk ->
                    keyId dk = k /\ (expiresAt dk, k) ∈ timers w /\
                    (clock w < expiresAt dk)%Z).
  { intros k dk H. pose proof H as H0. unfold run_timers in H0.
    apply foldl_fire_subset in H0. cbn [keyCache set_timers] in H0.
    destruct (Hs k dk H0) as [Hid Htimer]. repeat split; [exact Hid | exact Htimer |].
    destruct (decide (expiresAt dk <= clock w)%Z) as [Hdue|]; [|lia].
    rewrite (run_timers_evicts w (expiresAt dk) k Htimer Hdue) in H. discriminate H. }
  split.
  - intros k dk H. destruct (Hlive k dk H) as (Hid & Htimer & Hlt).
    split; [exact Hid|]. unfold run_timers.
    destruct (foldl_fire_clock
                (filter (fun t => (t.1 <= clock w)%Z) (timers w))
                (set_timers (filter (fun t => ¬ (t.1 <= clock w)%Z) (timers w)) w))
      as [_ ->].
    cbn [timers set_timers]. apply list_elem_of_filter. split; [cbn; lia | exact Htimer].
  - intros k dk H. now destruct (Hlive k dk H) as (_ & _ & Hlt).
Qed.

Lemma keeps_sound_generateDataKey : steps (keeps cache_sound) (generateDataKey this).
Proof.
  intros w o w' H Hs. apply generateDataKey_cases in H
    as [(pt & cb & _ & _ & ->) | (_ & _ & Hu & _)].
  - intros k dk. unfold after_issue. cbn [keyCache timers].
    destruct (decide (k = keyId (issued this w pt cb))) as [-> | Hne].
    + rewrite lookup_insert_eq. intros [= <-]. split; [reflexivity|].
      apply elem_of_app. right. now apply list_elem_of_singleton.
    + rewrite lookup_insert_ne by congruence. intros Hk.
      destruct (Hs k dk Hk) as [Hid Ht]. split; [exact Hid|].
      apply elem_of_app. now left.
  - exact (same_cache_keeps_sound _ _ (undisturbed_same_cache _ _ Hu) Hs).
Qed.

Lemma keeps_sound_quiet {A} (m : JS A) : steps undisturbed m -> steps (keeps cache_sound) m.
Proof.
  apply steps_weaken. intros w w' Hu.
  exact (same_cache_keeps_sound _ _ (undisturbed_same_cache _ _ Hu)).
Qed.

Lemma keeps_sound_randomBytes n : steps (keeps cache_sound) (crypto_randomBytes n).
Proof. intros w o w' [= _ <-] Hs. exact Hs. Qed.

Lemma keeps_sound_rethrow {A} label e' :
  forall e, steps (keeps cache_sound) (A := A) (console_error_ label e ;;; throw e').
Proof. intros e. apply keeps_sound_quiet, undisturbed_rethrow. Qed.

Lemma keeps_sound_encryptConfidentialData data ts :
  steps (keeps cache_sound) (encryptConfidentialData this data ts).
Proof.
  unfold encryptConfidentialData.
  apply steps_bind; [exact _ | apply keeps_sound_generateDataKey |]. intros dek.
  apply steps_bind; [exact _ | apply keeps_sound_randomBytes |]. intros iv.
  apply steps_bind; [exact _ | |].
  - destruct data; [apply steps_ret | apply steps_throw]; exact _.
  - intros s. apply steps_ret. exact _.
Qed.

Lemma keeps_sound_encrypt P c : steps (keeps cache_sound) (encrypt this P c).
Proof.
  unfold encrypt. apply steps_try_catch; [exact _ | | apply keeps_sound_rethrow].
  apply steps_bind; [exact _ | apply steps_lift; exact _ |]. intros s.
  apply steps_bind; [exact _ | apply keeps_sound_quiet, undisturbed_Date_now |].
  intros now. destruct (tier_of c) as [[]|].
  - unfold encryptPublicData.
    apply steps_bind; [exact _ | apply steps_Buffer_from_any; exact _ |].
    intros buf. apply steps_ret. exact _.
  - unfold encryptInternalData.
    apply steps_bind; [exact _ | apply steps_Buffer_from_any; exact _ |]. intros buf.
    apply steps_bind; [exact _ | apply keeps_sound_quiet, undisturbed_config |].
    intros ctx.
    apply steps_bind; [exact _ | apply keeps_sound_quiet, undisturbed_kms_request |].
    intros result.
    apply steps_bind; [exact _ | apply steps_defined; exact _ |]. intros blob.
    apply steps_ret. exact _.
  - apply keeps_sound_encryptConfidentialData.
  - unfold encryptRestrictedData.
    apply steps_bind; [exact _ | | intros tok; apply keeps_sound_encryptConfidentialData].
    unfold tokenizeData, crypto_randomUUID.
    apply steps_bind; [exact _ | |].
    + apply steps_bind; [exact _ | apply keeps_sound_randomBytes |].
      intros b. apply steps_ret. exact _.
    + intros token.
      apply steps_bind; [exact _ | apply steps_Buffer_from_any; exact _ |].
      intros buf. apply steps_ret. exact _.
  - apply steps_throw. exact _.
Qed.

Lemma keeps_sound_rotateKeys : steps (keeps cache_sound) (rotateKeys this).
Proof.
  unfold rotateKeys. apply steps_try_catch; [exact _ | | apply keeps_sound_rethrow].
  apply steps_bind; [exact _ | apply keeps_sound_quiet, undisturbed_kms_request |].
  intros _. apply steps_bind; [exact _ | |].
  - intros w o w' [= _ <-] _ k dk. cbn [keyCache set_keyCache].
    rewrite lookup_empty. discriminate.
  - intros _. apply keeps_sound_quiet, undisturbed_console_log.
Qed.

(** X9: in every world the service can reach, each entry of the cache is
    filed under its own identifier and has a timer pending at its expiry;
    so once the event loop has run, no key in the cache is expired. *)
Theorem reachable_cache_is_sound (w : World) :
  reachable this w ->
  cache_sound w /\
  forall k dk, keyCache (run_timers w) !! k = Some dk ->
               keyId dk = k /\ (clock w < expiresAt dk)%Z.
Proof.
  intros Hr.
  assert (Hs : cache_sound w).
  { induction Hr as [w Hc Ht | w P c o w' _ IH H | w e o w' _ IH H | w o w' _ IH H
                    | w o w' _ IH H | w d _ IH _ | w _ IH].
    - intros k dk. rewrite Hc, lookup_empty. discriminate.
    - exact (keeps_sound_encrypt P c w o w' H IH).
    - exact (keeps_sound_quiet _ (undisturbed_decrypt e) w o w' H IH).
    - exact (keeps_sound_generateDataKey w o w' H IH).
    - exact (keeps_sound_rotateKeys w o w' H IH).
    - exact IH.
    - exact (proj1 (run_timers_sound w IH)). }
  split; [exact Hs|]. intros k dk H.
  destruct (run_timers_sound w Hs) as [Hs' Hlive].
  split; [exact (proj1 (Hs' k dk H)) | exact (Hlive k dk H)].
Qed.

(** X10: [rotateKeys] is all or nothing: either KMS accepted and the cache
    is empty, or it throws the generic error and the cache is untouched.
    The timers set for the evicted keys stay pending either way. *)
Theorem rotateKeys_all_or_nothing w o w' :
  rotateKeys this w = (o, w') ->
  timers w' = timers w /\
  ((o = Return tt /\ keyCache w' = ∅ /\
    kms_enableKeyRotation (kmsRequests w) (customerMasterKeyId this) = Fulfilled tt)
   \/ (o = Throw (Error "Failed to rotate encryption keys") /\ undisturbed w w' /\
       exists code,
         kms_enableKeyRotation (kmsRequests w) (customerMasterKeyId this) = Rejected code)).
Proof.
  unfold rotateKeys, try_catch, bind, kms_request, keyCache_clear, console_log_.
  destruct (kms_enableKeyRotation _ _) as [[]|code] eqn:E; intros [= <- <-].
  - split; [reflexivity|]. left. repeat split.
  - split; [reflexivity|]. right. repeat split. now exists code.
Qed.

(** X11: after a rotation that KMS accepted, no envelope of the two
    block-cipher tiers issued before it can be decrypted: its key left
    the cache and nothing brings it back. *)
Theorem rotation_orphans_envelopes e w w1 :
  classification e = tier_value CONFIDENTIAL \/ classification e = tier_value RESTRICTED ->
  rotateKeys this w = (Return tt, w1) ->
  unavailable w1 (dataKeyId e) /\
  exists w2, decrypt e w1 = (Throw (Error "Failed to decrypt data"), w2).
Proof.
  intros Hc H. split.
  - left. rewrite (rotateKeys_clears this w w1 H). apply lookup_empty.
  - exact (decrypt_after_rotation_fails this e w w1 Hc H).
Qed.

End KeyLifecycle.

(** ** Round trips a caller can rely on *)

Section ReliableRoundTrips.

Context {pf : Platform}.
Variable this : AWSKMSService.

(** X12: at PUBLIC, a serializable payload always encrypts, to the base64
    of its JSON text, without a KMS request, a key or a random byte: the
    world is left as it was; and the envelope decrypts to the payload
    in any world, again leaving it as it was. *)
Theorem public_roundtrip_needs_nothing P text w w2 :
  serializable P text ->
  exists e,
    encrypt this P (tier_value PUBLIC) w = (Return e, w) /\
    encryptedBlob e = base64_encode (Buffer_from text) /\
    decrypt e w2 = (Return P, w2).
Proof.
  intros Hs. destruct (roundtrip_public this P text w Hs) as (e & He & Hd).
  exists e. split; [exact He|]. split; [|exact (Hd w2)].
  apply encrypt_Return in He as (s & T & Hs' & HT & He).
  destruct Hs as [Hs _]. rewrite Hs in Hs'. injection Hs' as <-.
  injection HT as <-.
  now apply encryptPublicData_Return in He as (s' & [= <-] & _ & ->).
Qed.

(** X13: at INTERNAL, with a faithful KMS, an envelope that [encrypt]
    returned decrypts to the payload in every world whose configuration
    object is the one of encryption time; each direction costs one KMS
    request and touches nothing else. *)
Theorem internal_roundtrip P text w e w1 w2 :
  serializable P text -> kms_faithful ->
  encrypt this P (tier_value INTERNAL) w = (Return e, w1) ->
  configContext w2 = configContext w ->
  w1 = set_kmsRequests (S (kmsRequests w)) w /\
  decrypt e w2 = (Return P, set_kmsRequests (S (kmsRequests w2)) w2).
Proof.
  intros Hs Hkms He Hctx. split.
  - apply encrypt_Return in He as (s & T & _ & HT & He). injection HT as <-.
    now apply encryptInternalData_Return in He as (? & ? & _ & _ & -> & _).
  - exact (roundtrip_internal this P text w e w1 w2 Hs Hkms He Hctx).
Qed.

(** X14: at CONFIDENTIAL, with a faithful cipher, an envelope that
    [encrypt] returned decrypts to the payload in every world where its key
    is still the cache entry and the clock is before the key's expiry. *)
Theorem confidential_roundtrip_while_cached P text w e w1 w2 :
  serializable P text -> cipher_faithful ->
  encrypt this P (tier_value CONFIDENTIAL) w = (Return e, w1) ->
  keyCache w2 !! dataKeyId e = keyCache w1 !! dataKeyId e ->
  (clock w2 < clock w + cacheTimeout this)%Z ->
  decrypt e w2 = (Return P, w2).
Proof. exact (roundtrip_confidential this P text w e w1 w2). Qed.

(** X15: the same through the event loop: if no older timer names the new
    key's identifier, then after any time shorter than the time-to-live,
    with the due timers run, the envelope still decrypts to the payload. *)
Theorem confidential_roundtrip_across_event_loop P text w e w1 (d : Z) :
  serializable P text -> cipher_faithful ->
  encrypt this P (tier_value CONFIDENTIAL) w = (Return e, w1) ->
  (forall t, (t, dataKeyId e) ∉ timers w) ->
  (d < cacheTimeout this)%Z ->
  decrypt e (elapse d w1) = (Return P, elapse d w1).
Proof.
  intros Hs Hcipher He Hfresh Hd.
  assert (Hw1 : timers w1 = timers w ++ [((clock w + cacheTimeout this)%Z, dataKeyId e)]
                /\ clock w1 = clock w).
  { pose proof He as H. apply encrypt_Return in H as (s & T & _ & HT & H).
    injection HT as <-.
    apply encryptConfidentialData_Return in H as (s' & dek & w0 & _ & Hk & -> & ->).
    apply generateDataKey_Return in Hk as (pt & cb & _ & -> & ->).
    split; reflexivity. }
  destruct Hw1 as [Htimers Hclock].
  apply (roundtrip_confidential this P text w e w1 (elapse d w1) Hs Hcipher He).
  - unfold elapse, run_timers. rewrite foldl_fire_other; [reflexivity|].
    intros t Hin. apply list_elem_of_filter in Hin as [Hdue Hin].
    cbn [fst tick set_clock clock timers] in Hdue, Hin.
    rewrite Htimers in Hin. apply elem_of_app in Hin as [Hin | Hin].
    + exact (Hfresh t Hin).
    + apply list_elem_of_singleton in Hin. injection Hin as ->. lia.
  - unfold elapse, run_timers.
    destruct (foldl_fire_clock
                (filter (fun t => (t.1 <= clock (tick d w1))%Z) (timers (tick d w1)))
                (set_timers (filter (fun t => ¬ (t.1 <= clock (tick d w1))%Z)
                               (timers (tick d w1))) (tick d w1))) as [-> _].
    cbn [clock set_timers tick set_clock]. lia.
Qed.

(** X16: what [encryptRestrictedData] produces is what
    [decryptRestrictedData] undoes: with the classification of the envelope
    set to "restricted", [decrypt] deciphers, detokenizes and returns the
    payload. *)
Theorem restricted_blob_decrypts_when_relabelled P text w e w1 w2 :
  serializable P text -> text <> EmptyString -> cipher_faithful ->
  encrypt this P (tier_value RESTRICTED) w = (Return e, w1) ->
  keyCache w2 !! dataKeyId e = keyCache w1 !! dataKeyId e ->
  (clock w2 < clock w + cacheTimeout this)%Z ->
  decrypt (with_classification (tier_value RESTRICTED) e) w2 = (Return P, w2).
Proof. exact (restricted_roundtrip_relabelled this P text w e w1 w2). Qed.

(** X17: what the envelope of each tier carries besides the blob: the
    call time as timestamp, the shared configuration context, and the key
    identifier of the tier: the word "public", the root key, or a data key
    that is in the cache when [encrypt] returns.  The [iv] and the
    [authTag] are there exactly at the two block-cipher tiers. *)
Theorem envelope_fields P T w e w' :
  encrypt this P (tier_value T) w = (Return e, w') ->
  timestamp e = Date_toISOString (clock w) /\
  encryptionContext e = SharedConfigContext /\
  match T with
  | PUBLIC =>
      dataKeyId e = "public" /\ iv e = None /\ authTag e = None
  | INTERNAL =>
      dataKeyId e = customerMasterKeyId this /\ iv e = None /\ authTag e = None /\
      keyCache w' = keyCache w
  | CONFIDENTIAL | RESTRICTED =>
      (exists dek, keyCache w' !! dataKeyId e = Some dek /\ keyId dek = dataKeyId e /\
                   keyCache w' = <[dataKeyId e := dek]> (keyCache w)) /\
      (exists bytes, length bytes = 16%nat /\ iv e = Some (hex_encode bytes)) /\
      authTag e = Some "sha256-hmac"
  end.
Proof.
  intros H. apply encrypt_Return in H as (s & T' & _ & HT & H).
  rewrite tier_of_value in HT. injection HT as <-.
  assert (Hconf : forall data w0,
            encryptConfidentialData this data (Date_toISOString (clock w)) w0 = (Return e, w') ->
            timestamp e = Date_toISOString (clock w) /\
            encryptionContext e = SharedConfigContext /\
            (exists dek, keyCache w' !! dataKeyId e = Some dek /\ keyId dek = dataKeyId e /\
                         keyCache w' = <[dataKeyId e := dek]> (keyCache w0)) /\
            (exists bytes, length bytes = 16%nat /\ iv e = Some (hex_encode bytes)) /\
            authTag e = Some "sha256-hmac").
  { intros data w0 H0.
    apply encryptConfidentialData_Return in H0 as (s' & dek & w1 & _ & Hk & -> & ->).
    apply generateDataKey_Return in Hk as (pt & cb & _ & -> & ->).
    cbn [timestamp encryptionContext dataKeyId iv authTag keyCache set_drawn after_issue].
    repeat split.
    - eexists. split; [apply lookup_insert_eq | split; reflexivity].
    - eexists. split; [|reflexivity]. now rewrite length_map, length_seq. }
  destruct T.
  - apply encryptPublicData_Return in H as (? & _ & _ & ->). repeat split.
  - apply encryptInternalData_Return in H as (? & ? & _ & _ & -> & ->). repeat split.
  - exact (Hconf _ _ H).
  - apply encryptRestrictedData_Return in H as (? & _ & H).
    exact (Hconf _ _ H).
Qed.


End ReliableRoundTrips.

(** ** The tokenizer *)

Section Tokenizer.

(** X19: for every string but the empty one, detokenizing its token gives
    the string back; tokenizing draws sixteen random bytes for the token
    identifier and touches nothing else. *)
Theorem tokenize_then_detokenize (s : string) (w : World) :
  s <> EmptyString ->
  (tokenized <- tokenizeData (Some s) ;; detokenizeData tokenized) w
  = (Return s, set_drawn (drawn w + 16) w).
Proof.
  intros Hs. unfold bind. rewrite tokenizeData_run.
  rewrite detokenizeData_token by apply no_colon_uuid_format.
  destruct (Buffer_from s) eqn:E.
  - now apply Buffer_from_empty in E.
  - rewrite <- E. now rewrite Buffer_toString_from.
Qed.

Lemma startsWith_String (c : ascii) (s p : string) :
  startsWith (String c s) (String c p) = startsWith s p.
Proof. unfold startsWith. cbn [String.prefix]. now destruct (ascii_dec c c). Qed.

(** X20: [detokenizeData] is tolerant: a string that does not start with
    the tag, and a tagged string with no second colon, come back
    unchanged. *)
Theorem detokenize_passes_through (s : string) (w : World) :
  startsWith s "TOKEN:" = false
  \/ (exists rest, s = "TOKEN:" +:+ rest /\ no_colon rest = true) ->
  detokenizeData s w = (Return s, w).
Proof.
  intros [H | (rest & -> & Hrest)]; unfold detokenizeData.
  - now rewrite H.
  - rewrite startsWith_token.
    change ("TOKEN:" +:+ rest) with ("TOKEN" +:+ String ":" rest).
    rewrite split_before_colon by reflexivity.
    rewrite split_without_colon by assumption. reflexivity.
Qed.

End Tokenizer.

(** ** Key metadata *)

Section MetadataFacts.

Context {dir : KeyDirectory}.

(** X21: [getKeyMetadata] sends one [describeKey] request and changes
    nothing else.  It returns exactly when KMS replies with metadata: a
    text field KMS left out is the empty string, a creation date it left
    out is the time of the call, and the two rotation dates are never
    filled in.  In every other case the caller gets the generic error. *)
Theorem getKeyMetadata_behaviour (k : string) (w : World) :
  undisturbed w (after (getKeyMetadata k) w) /\
  kmsRequests (after (getKeyMetadata k) w) = S (kmsRequests w) /\
  outcome (getKeyMetadata k) w
  = match kms_describeKey (kmsRequests w) k with
    | Fulfilled (Some metadata) =>
        Return (Metadata.mkKeyMetadata
                  (or_else (KeyId metadata) EmptyString)
                  (or_else (KeyState metadata) EmptyString)
                  (match CreationDate metadata with
                   | Some date => date
                   | None => clock w
                   end)
                  None None
                  (or_else (Description metadata) EmptyString)
                  (or_else (KeyUsage metadata) EmptyString))
    | _ => Throw (Error "Failed to retrieve key metadata")
    end.
Proof.
  unfold outcome, after, getKeyMetadata, try_catch, bind, kms_request.
  destruct (kms_describeKey (kmsRequests w) k) as [[metadata|]|code].
  - destruct (CreationDate metadata); cbn; repeat split.
  - cbn. repeat split.
  - cbn. repeat split.
Qed.

End MetadataFacts.

(** ** The secrets service *)

Section SecretsFacts.

Context {pf : Platform} {sm : SecretStore}.

(** X22: with a faithful store, a serializable value stored under a name
    is what [getSecret] returns for that name from the store that
    [storeSecret] left; neither call touches the world. *)
Theorem secret_roundtrip name value text vault vault' w w1 w2 :
  store_faithful -> serializable value text -> text <> EmptyString ->
  storeSecret name value vault w = (Return vault', w1) ->
  w1 = w /\ getSecret name vault' w2 = (Return value, w2).
Proof.
  intros Hstore [Hs Hp] Hne H.
  apply try_catch_rethrow_Return in H. revert H.
  unfold bind, lift. rewrite Hs. unfold sm_request.
  destruct (sm_createSecret vault name (Some text) _) as [v|code] eqn:E; [|discriminate].
  intros [= <- <-]. split; [reflexivity|].
  unfold getSecret. apply try_catch_run. unfold bind, sm_request.
  rewrite (Hstore _ _ _ _ _ E). cbn [ret].
  destruct (String.eqb text EmptyString) eqn:Hempty.
  - apply String.eqb_eq in Hempty. contradiction.
  - now rewrite Hp.
Qed.

(** X23: [getSecret] returns a value exactly when the store replies with a
    secret string that is not empty and parses as JSON; a secret without a
    string, an empty one, and one that is not JSON cannot be read back.
    Otherwise the caller gets the generic error. *)
Theorem getSecret_returns_exactly name vault w :
  (forall value w',
     getSecret name vault w = (Return value, w') <->
     exists text,
       sm_getSecretValue vault name "AWSCURRENT" = Fulfilled (Some text) /\
       text <> EmptyString /\ JSON_parse text = Some value /\ w' = w)
  /\ ((exists value, outcome (getSecret name vault) w = Return value)
      \/ outcome (getSecret name vault) w = Throw (Error "Failed to retrieve secret")).
Proof.
  split.
  - intros value w'. unfold getSecret, try_catch, bind, sm_request.
    destruct (sm_getSecretValue vault name "AWSCURRENT") as [[text|]|code]; cbn.
    + destruct (String.eqb text EmptyString) eqn:Hempty; cbn.
      * apply String.eqb_eq in Hempty. subst text. split; [discriminate|].
        intros (t & [= <-] & Hne & _). now destruct Hne.
      * apply String.eqb_neq in Hempty.
        destruct (JSON_parse text) as [v|] eqn:Hp; cbn.
        -- split.
           ++ intros [= <- <-]. exists text. auto.
           ++ intros (t & [= <-] & _ & Hp' & ->). rewrite Hp in Hp'.
              now injection Hp' as <-.
        -- split; [discriminate|].
           intros (t & [= <-] & _ & Hp' & _). rewrite Hp in Hp'. discriminate.
    + split; [discriminate | intros (t & Heq & _); discriminate Heq].
    + split; [discriminate | intros (t & Heq & _); discriminate Heq].
  - unfold outcome, getSecret, try_catch. destruct (bind _ _ w) as [[v|e] w0]; cbn.
    + left. now exists v.
    + right. reflexivity.
Qed.

End SecretsFacts.

(** ** More of the service on the reference platform *)

Section MoreScenarios.

Lemma reference_store_faithful : @store_faithful reference_store.
Proof.
  intros vault name text description vault'. cbn.
  match goal with
  | |- match ?x with _ => _ end = _ -> _ => destruct x eqn:E
  end; intros H; [discriminate H|].
  injection H as <-.
  match goal with
  | |- match ?x with _ => _ end = _ =>
      replace x with (Some text) by (symmetry; apply lookup_insert_eq)
  end.
  reflexivity.
Qed.

Lemma api_credentials_serializable :
  serializable (pf := reference_platform) api_credentials
    (Reference.stringify api_credentials).
Proof. split; vm_compute; reflexivity. Qed.

Lemma decrypt_unsupported_classification_witness :
  outcome (decrypt (pf := reference_platform)
             (with_classification "secret" orphan_envelope)) start
  = Throw (Error "Failed to decrypt data") /\
  kmsRequests (after (decrypt (pf := reference_platform)
                        (with_classification "secret" orphan_envelope)) start)
  = kmsRequests start.
Proof.
  unfold outcome, after.
  rewrite (decrypt_unsupported_classification (pf := reference_platform)
             (with_classification "secret" orphan_envelope) start eq_refl).
  split; reflexivity.
Defined.

Lemma failed_issue_registers_nothing_witness :
  exists e w',
    generateDataKey (pf := reference_platform)
      (mkAWSKMSService "invalid-key-id" 900000) start = (Throw e, w') /\
    e = Error "Failed to generate data encryption key" /\
    undisturbed start w'.
Proof.
  destruct (generateDataKey (pf := reference_platform)
              (mkAWSKMSService "invalid-key-id" 900000) start) as [[dek|e] w'] eqn:E.
  - vm_compute in E. discriminate E.
  - exists e, w'. split; [reflexivity|].
    destruct (failed_issue_registers_nothing (pf := reference_platform)
                (mkAWSKMSService "invalid-key-id" 900000) start e w' E)
      as (He & Hu & _).
    split; [exact He | exact Hu].
Defined.


Lemma lookup_hits_exactly_before_expiry_witness :
  exists dek w1,
    generateDataKey (pf := reference_platform) kmsService start = (Return dek, w1) /\
    (getOrDecryptDataKey (keyId dek) (tick 899999 w1) = (Return dek, tick 899999 w1)
     <-> (clock (tick 899999 w1) < clock start + 900000)%Z) /\
    (getOrDecryptDataKey (keyId dek) (tick 900000 w1) = (Return dek, tick 900000 w1)
     <-> (clock (tick 900000 w1) < clock start + 900000)%Z).
Proof.
  destruct (generateDataKey (pf := reference_platform) kmsService start)
    as [[dek|e] w1] eqn:E.
  - exists dek, w1. split; [reflexivity|].
    destruct (generateDataKey_world (pf := reference_platform) kmsService start dek w1 E)
      as (Hin & _ & _).
    split.
    + exact (lookup_hits_exactly_before_expiry (pf := reference_platform)
               kmsService start dek w1 (tick 899999 w1) E Hin).
    + exact (lookup_hits_exactly_before_expiry (pf := reference_platform)
               kmsService start dek w1 (tick 900000 w1) E Hin).
  - vm_compute in E. discriminate E.
Defined.

Lemma issued_key_is_gone_after_ttl_witness :
  exists dek w1,
    generateDataKey (pf := reference_platform) kmsService start = (Return dek, w1) /\
    keyCache (elapse 900000 w1) !! keyId dek = None /\
    unavailable (elapse 900000 w1) (keyId dek).
Proof.
  destruct (generateDataKey (pf := reference_platform) kmsService start)
    as [[dek|e] w1] eqn:E.
  - exists dek, w1. split; [reflexivity|].
    apply (issued_key_is_gone_after_ttl (pf := reference_platform)
             kmsService start dek w1 900000 E).
    vm_compute. discriminate.
  - vm_compute in E. discriminate E.
Defined.

Lemma reachable_cache_is_sound_witness :
  exists o w1,
    encrypt (pf := reference_platform) kmsService transaction
      (tier_value CONFIDENTIAL) start = (o, w1) /\
    cache_sound (tick 1000000 w1) /\
    forall k dk, keyCache (run_timers (tick 1000000 w1)) !! k = Some dk ->
                 keyId dk = k /\ (clock (tick 1000000 w1) < expiresAt dk)%Z.
Proof.
  destruct (encrypt (pf := reference_platform) kmsService transaction
              (tier_value CONFIDENTIAL) start) as [o w1] eqn:E.
  exists o, w1. split; [reflexivity|].
  apply (reachable_cache_is_sound (pf := reference_platform) kmsService).
  apply reach_tick; [|discriminate].
  apply (reach_encrypt (pf := reference_platform)
           kmsService start transaction (tier_value CONFIDENTIAL) o w1);
    [|exact E].
  apply reach_start; reflexivity.
Defined.

Lemma rotateKeys_all_or_nothing_witness :
  exists o w1 w2,
    encrypt (pf := reference_platform) kmsService transaction
      (tier_value CONFIDENTIAL) start = (o, w1) /\
    rotateKeys (pf := reference_platform) kmsService w1 = (Return tt, w2) /\
    timers w2 = timers w1 /\ keyCache w2 = ∅.
Proof.
  destruct (encrypt (pf := reference_platform) kmsService transaction
              (tier_value CONFIDENTIAL) start) as [o w1] eqn:E.
  destruct (rotateKeys (pf := reference_platform) kmsService w1) as [o2 w2] eqn:E2.
  exists o, w1, w2. split; [reflexivity|].
  destruct (rotateKeys_all_or_nothing (pf := reference_platform) kmsService w1 o2 w2 E2)
    as [Ht [(-> & Hc & _) | (_ & _ & code & Hr)]].
  - split; [exact E2|]. split; [exact Ht | exact Hc].
  - exfalso. vm_compute in Hr. discriminate Hr.
Defined.

Lemma reference_rotation_never_throws (w w' : World) (err : Exn) :
  rotateKeys (pf := reference_platform) kmsService w = (Throw err, w') -> False.
Proof.
  unfold rotateKeys, try_catch, bind, kms_request, keyCache_clear, console_log_.
  cbn. discriminate.
Qed.

Lemma rotation_orphans_envelopes_witness :
  exists o w1 w2,
    encrypt (pf := reference_platform) kmsService transaction
      (tier_value CONFIDENTIAL) start = (o, w1) /\
    rotateKeys (pf := reference_platform) kmsService w1 = (Return tt, w2) /\
    forall e, o = Return e ->
      exists w3, decrypt (pf := reference_platform) e w2
                 = (Throw (Error "Failed to decrypt data"), w3).
Proof.
  destruct (encrypt (pf := reference_platform) kmsService transaction
              (tier_value CONFIDENTIAL) start) as [o w1] eqn:E.
  destruct (rotateKeys (pf := reference_platform) kmsService w1) as [[[]|err] w2] eqn:E2;
    cycle 1.
  { exfalso. apply reference_rotation_never_throws in E2. exact E2. }
  exists o, w1, w2. split; [reflexivity|]. split; [exact E2|].
  intros e ->.
  refine (proj2 (rotation_orphans_envelopes (pf := reference_platform)
                   kmsService e w1 w2 _ E2)).
  left. exact (encrypt_classification (pf := reference_platform)
                 kmsService transaction CONFIDENTIAL start e w1 E).
Defined.

Lemma public_roundtrip_needs_nothing_witness :
  exists e,
    encrypt (pf := reference_platform) kmsService transaction (tier_value PUBLIC) start
    = (Return e, start) /\
    encryptedBlob e = base64_encode (Buffer_from (Reference.stringify transaction)) /\
    decrypt (pf := reference_platform) e (tick 86400000 start)
    = (Return transaction, tick 86400000 start).
Proof.
  exact (public_roundtrip_needs_nothing (pf := reference_platform) kmsService
           transaction (Reference.stringify transaction) start (tick 86400000 start)
           transaction_serializable).
Defined.

Lemma internal_roundtrip_witness :
  exists e w1,
    encrypt (pf := reference_platform) kmsService transaction (tier_value INTERNAL) start
    = (Return e, w1) /\
    w1 = set_kmsRequests 1 start /\
    decrypt (pf := reference_platform) e w1
    = (Return transaction, set_kmsRequests (S (kmsRequests w1)) w1).
Proof.
  destruct (encrypt (pf := reference_platform) kmsService transaction
              (tier_value INTERNAL) start) as [[e|err] w1] eqn:E.
  - exists e, w1. split; [reflexivity|].
    assert (Hctx : configContext w1 = configContext start).
    { pose proof E as E'. apply encrypt_Return in E' as (s & T & _ & HT & E').
      injection HT as <-.
      now apply encryptInternalData_Return in E' as (? & ? & _ & _ & -> & _). }
    exact (internal_roundtrip (pf := reference_platform) kmsService transaction
             (Reference.stringify transaction) start e w1 w1
             transaction_serializable reference_kms_faithful E Hctx).
  - vm_compute in E. discriminate E.
Defined.

Lemma confidential_roundtrip_while_cached_witness :
  exists e w1,
    encrypt (pf := reference_platform) kmsService transaction
      (tier_value CONFIDENTIAL) start = (Return e, w1) /\
    decrypt (pf := reference_platform) e (tick 899999 w1)
    = (Return transaction, tick 899999 w1).
Proof.
  destruct (encrypt (pf := reference_platform) kmsService transaction
              (tier_value CONFIDENTIAL) start) as [[e|err] w1] eqn:E.
  - exists e, w1. split; [reflexivity|].
    refine (confidential_roundtrip_while_cached (pf := reference_platform) kmsService
              transaction (Reference.stringify transaction) start e w1 (tick 899999 w1)
              transaction_serializable reference_cipher_faithful E eq_refl _).
    pose proof E as E'. apply encrypt_Return in E' as (s & T & _ & HT & E').
    injection HT as <-.
    apply encryptConfidentialData_Return in E' as (? & dek & w0 & _ & Hk & -> & _).
    destruct (generateDataKey_world (pf := reference_platform) kmsService start dek w0 Hk)
      as (_ & Hclock & _).
    unfold tick, set_clock, set_drawn. cbn [clock]. rewrite Hclock.
    vm_compute. reflexivity.
  - vm_compute in E. discriminate E.
Defined.

Lemma confidential_roundtrip_across_event_loop_witness :
  exists e w1,
    encrypt (pf := reference_platform) kmsService transaction
      (tier_value CONFIDENTIAL) start = (Return e, w1) /\
    decrypt (pf := reference_platform) e (elapse 600000 w1)
    = (Return transaction, elapse 600000 w1).
Proof.
  destruct (encrypt (pf := reference_platform) kmsService transaction
              (tier_value CONFIDENTIAL) start) as [[e|err] w1] eqn:E.
  - exists e, w1. split; [reflexivity|].
    apply (confidential_roundtrip_across_event_loop (pf := reference_platform) kmsService
             transaction (Reference.stringify transaction) start e w1 600000
             transaction_serializable reference_cipher_faithful E).
    + intros t. apply not_elem_of_nil.
    + reflexivity.
  - vm_compute in E. discriminate E.
Defined.

Lemma restricted_blob_decrypts_when_relabelled_witness :
  exists e w1,
    encrypt (pf := reference_platform) kmsService transaction
      (tier_value RESTRICTED) start = (Return e, w1) /\
    decrypt (pf := reference_platform)
      (with_classification (tier_value RESTRICTED) e) (tick 1 w1)
    = (Return transaction, tick 1 w1).
Proof.
  destruct (encrypt (pf := reference_platform) kmsService transaction
              (tier_value RESTRICTED) start) as [[e|err] w1] eqn:E.
  - exists e, w1. split; [reflexivity|].
    refine (restricted_blob_decrypts_when_relabelled (pf := reference_platform) kmsService
              transaction (Reference.stringify transaction) start e w1 (tick 1 w1)
              transaction_serializable _ reference_cipher_faithful E eq_refl _).
    + vm_compute. discriminate.
    + pose proof E as E'. apply encrypt_Return in E' as (s & T & _ & HT & E').
      injection HT as <-.
      apply encryptRestrictedData_Return in E' as (? & _ & E').
      apply encryptConfidentialData_Return in E' as (? & dek & w0 & _ & Hk & -> & _).
      apply generateDataKey_Return in Hk as (? & ? & _ & _ & ->).
      unfold tick, set_clock, set_drawn, after_issue. cbn [clock].
      vm_compute. reflexivity.
  - vm_compute in E. discriminate E.
Defined.

Lemma envelope_fields_witness :
  exists e w1,
    encrypt (pf := reference_platform) kmsService transaction
      (tier_value RESTRICTED) start = (Return e, w1) /\
    timestamp e = "2023-11-14T22:13:20.000Z" /\
    encryptionContext e = SharedConfigContext /\
    (exists dek, keyCache w1 !! dataKeyId e = Some dek /\ keyId dek = dataKeyId e /\
                 keyCache w1 = <[dataKeyId e := dek]> (keyCache start)) /\
    (exists bytes, length bytes = 16%nat /\ iv e = Some (hex_encode bytes)) /\
    authTag e = Some "sha256-hmac".
Proof.
  destruct (encrypt (pf := reference_platform) kmsService transaction
              (tier_value RESTRICTED) start) as [[e|err] w1] eqn:E.
  - exists e, w1. split; [reflexivity|].
    exact (envelope_fields (pf := reference_platform) kmsService transaction RESTRICTED
             start e w1 E).
  - vm_compute in E. discriminate E.
Defined.


Lemma tokenize_then_detokenize_witness :
  (tokenized <- tokenizeData (Some "4111-1111-1111-1111") ;; detokenizeData tokenized) start
  = (Return "4111-1111-1111-1111", set_drawn 16 start).
Proof.
  apply (tokenize_then_detokenize "4111-1111-1111-1111" start). discriminate.
Defined.

Lemma detokenize_passes_through_witness :
  detokenizeData "plain text" start = (Return "plain text", start) /\
  detokenizeData "TOKEN:no-payload" start = (Return "TOKEN:no-payload", start).
Proof.
  split.
  - apply detokenize_passes_through. left. reflexivity.
  - apply detokenize_passes_through. right. exists "no-payload". split; reflexivity.
Defined.

Lemma secret_roundtrip_witness :
  exists vault',
    storeSecret (pf := reference_platform) (sm := reference_store)
      "endcrypt/api" api_credentials ∅ start = (Return vault', start) /\
    getSecret (pf := reference_platform) (sm := reference_store)
      "endcrypt/api" vault' start = (Return api_credentials, start).
Proof.
  destruct (storeSecret (pf := reference_platform) (sm := reference_store)
              "endcrypt/api" api_credentials ∅ start) as [[vault'|err] w1] eqn:E.
  - exists vault'.
    destruct (secret_roundtrip (pf := reference_platform) (sm := reference_store)
                "endcrypt/api" api_credentials (Reference.stringify api_credentials)
                ∅ vault' start w1 start
                reference_store_faithful api_credentials_serializable) as [-> Hget];
      [vm_compute; discriminate | exact E |].
    split; [reflexivity | exact Hget].
  - vm_compute in E. discriminate E.
Defined.

(** Secrets that cannot be read back: a plain string that is not JSON. *)
Example plain_secret_cannot_be_read :
  outcome (getSecret (pf := reference_platform) (sm := reference_store) "db-password"
             ({[ "db-password" := "hunter2" ]} : gmap string string)) start
  = Throw (Error "Failed to retrieve secret").
Proof. vm_compute. reflexivity. Qed.

(** The metadata of the EndCrypt key, whose description KMS leaves out. *)
Example endcrypt_key_metadata :
  outcome (getKeyMetadata (dir := reference_directory) "alias/EndCrypt") start
  = Return (Metadata.mkKeyMetadata ENDCRYPT_KMS_CONFIG_keyId "Enabled" 1690000000000
              None None EmptyString "ENCRYPT_DECRYPT").
Proof. vm_compute. reflexivity. Qed.

End MoreScenarios.
